(** * webrtc-vision: frame queue, ICE buffering, pending offer, remote detection

    A shallow embedding of the client-side control logic of the
    webrtc-vision front end ([utils/frameQueue.js] and the signaling /
    negotiation / detection-dispatch handlers of [App.js]).

    Conventions of the embedding.
    - JavaScript numbers that carry times, rates and durations are
      idealised as exact rationals ([Q]); counters and lengths are [nat].
      The frame interval, [1000 / targetFPS], is [Infinity] for a zero
      target rate and is kept as a [num].
    - Clock readings ([performance.now()]) and generated identifiers are
      inputs of the operation that reads them.
    - An [async] function is cut at its [await]: the part before it and
      the continuation after it are separate transitions, so that other
      events can be interleaved between them. *)

From Stdlib Require Import QArith Qminmax Qround Lqa.
From stdpp Require Import gmap strings list.

(** ** JavaScript numbers *)

(** [a < b] on numbers, as a boolean. *)
Definition Qltb (a b : Q) : bool := negb (Qle_bool b a).

(** A number that may be [Infinity]: the frame interval is [Infinity]
    when the target rate is zero. *)
Inductive num :=
| Finite (x : Q)
| Infinity.

(** [a / b] for a positive [a]. *)
Definition num_div (a b : Q) : num :=
  if Qeq_bool b 0 then Infinity else Finite (a / b).

(** [x * k] for a positive [k]. *)
Definition num_times (x : num) (k : Q) : num :=
  match x with
  | Finite x => Finite (x * k)
  | Infinity => Infinity
  end.

(** [a < b] as a boolean, and as a proposition. *)
Definition num_ltb (a b : num) : bool :=
  match a, b with
  | Finite x, Finite y => Qltb x y
  | Finite _, Infinity => true
  | Infinity, _ => false
  end.

Definition num_lt (a b : num) : Prop := num_ltb a b = true.

(** [Number(n)] for a count. *)
Definition Qnat (n : nat) : Q := inject_Z (Z.of_nat n).

(** [arr.reduce((a, b) => a + b, 0)] *)
Definition Qsum (l : list Q) : Q := fold_left Qplus l 0%Q.

(** [arr.shift()]: the array without its first element (nothing happens
    on an empty array). *)
Definition shift {A} (l : list A) : list A := tail l.

(** ** Frames and detection results *)

Module Frame.
Record t := mk {
  id : string;
  data : string;
  captureTimestamp : Q;
  queueTimestamp : Q
}.
End Frame.

Record Detection := {
  class_name : string;
  confidence : Q;
  bbox : Q * Q * Q * Q
}.

(** The object a processing function resolves to (also the payload of a
    [detection_result] signaling message). The last four fields are the
    ones [dequeue] writes into it. *)
Record DetectionResult := {
  frame_id : string;
  capture_ts : Q;
  recv_ts : Q;
  inference_ts : Q;
  detections : list Detection;
  mode : string;
  queueLatency : option Q;
  totalLatency : option Q;
  frameId : option string;
  captureTimestamp : option Q
}.

(** ** FrameQueue (utils/frameQueue.js) *)

Module Metrics.
Record t := mk {
  queueLength : nat;
  droppedFrames : nat;
  processedFrames : nat;
  dropRate : Q;
  avgProcessingTime : Q;
  targetFPS : Q;
  actualFPS : Q
}.
End Metrics.

Record FrameQueue := mkFrameQueue {
  maxSize : nat;
  targetFPS : Q;
  queue : list Frame.t;
  processing : bool;
  lastProcessTime : Q;
  frameInterval : num;
  droppedFrames : nat;
  processedFrames : nat;
  totalFrames : nat;
  avgProcessingTime : Q;
  processingTimes : list Q;
  maxProcessingTimeHistory : nat;
  metrics : Metrics.t
}.

(** [new FrameQueue(maxSize, targetFPS)] *)
Definition newFrameQueue (maxSize : nat) (targetFPS : Q) : FrameQueue :=
  {| maxSize := maxSize;
     targetFPS := targetFPS;
     queue := [];
     processing := false;
     lastProcessTime := 0;
     frameInterval := num_div 1000 targetFPS;
     droppedFrames := 0;
     processedFrames := 0;
     totalFrames := 0;
     avgProcessingTime := 0;
     processingTimes := [];
     maxProcessingTimeHistory := 10;
     metrics := Metrics.mk 0 0 0 0 0 targetFPS 0 |}.

Definition calculateActualFPS (q : FrameQueue) : Q :=
  if (length (processingTimes q) <? 2)%nat then 0%Q
  else if Qeq_bool (avgProcessingTime q) 0 then 0%Q
  else Qmin (targetFPS q) (1000 / avgProcessingTime q).

Definition set_metrics (m : Metrics.t) (q : FrameQueue) : FrameQueue :=
  mkFrameQueue (maxSize q) (targetFPS q) (queue q) (processing q)
    (lastProcessTime q) (frameInterval q) (droppedFrames q)
    (processedFrames q) (totalFrames q) (avgProcessingTime q)
    (processingTimes q) (maxProcessingTimeHistory q) m.

Definition updateMetrics (q : FrameQueue) : FrameQueue :=
  set_metrics
    (Metrics.mk (length (queue q)) (droppedFrames q) (processedFrames q)
       (if (0 <? totalFrames q)%nat
        then (Qnat (droppedFrames q) / Qnat (totalFrames q) * 100)%Q
        else 0%Q)
       (avgProcessingTime q) (targetFPS q) (calculateActualFPS q))
    q.

(** Field updates ([this.f = v], [this.f++]). *)
Definition set_queue (l : list Frame.t) (q : FrameQueue) : FrameQueue :=
  mkFrameQueue (maxSize q) (targetFPS q) l (processing q)
    (lastProcessTime q) (frameInterval q) (droppedFrames q)
    (processedFrames q) (totalFrames q) (avgProcessingTime q)
    (processingTimes q) (maxProcessingTimeHistory q) (metrics q).

Definition set_processing (b : bool) (q : FrameQueue) : FrameQueue :=
  mkFrameQueue (maxSize q) (targetFPS q) (queue q) b
    (lastProcessTime q) (frameInterval q) (droppedFrames q)
    (processedFrames q) (totalFrames q) (avgProcessingTime q)
    (processingTimes q) (maxProcessingTimeHistory q) (metrics q).

Definition set_lastProcessTime (t : Q) (q : FrameQueue) : FrameQueue :=
  mkFrameQueue (maxSize q) (targetFPS q) (queue q) (processing q)
    t (frameInterval q) (droppedFrames q)
    (processedFrames q) (totalFrames q) (avgProcessingTime q)
    (processingTimes q) (maxProcessingTimeHistory q) (metrics q).

Definition incr_droppedFrames (q : FrameQueue) : FrameQueue :=
  mkFrameQueue (maxSize q) (targetFPS q) (queue q) (processing q)
    (lastProcessTime q) (frameInterval q) (S (droppedFrames q))
    (processedFrames q) (totalFrames q) (avgProcessingTime q)
    (processingTimes q) (maxProcessingTimeHistory q) (metrics q).

Definition incr_processedFrames (q : FrameQueue) : FrameQueue :=
  mkFrameQueue (maxSize q) (targetFPS q) (queue q) (processing q)
    (lastProcessTime q) (frameInterval q) (droppedFrames q)
    (S (processedFrames q)) (totalFrames q) (avgProcessingTime q)
    (processingTimes q) (maxProcessingTimeHistory q) (metrics q).

Definition incr_totalFrames (q : FrameQueue) : FrameQueue :=
  mkFrameQueue (maxSize q) (targetFPS q) (queue q) (processing q)
    (lastProcessTime q) (frameInterval q) (droppedFrames q)
    (processedFrames q) (S (totalFrames q)) (avgProcessingTime q)
    (processingTimes q) (maxProcessingTimeHistory q) (metrics q).

Definition set_processingTimes (l : list Q) (a : Q) (q : FrameQueue)
  : FrameQueue :=
  mkFrameQueue (maxSize q) (targetFPS q) (queue q) (processing q)
    (lastProcessTime q) (frameInterval q) (droppedFrames q)
    (processedFrames q) (totalFrames q) a
    l (maxProcessingTimeHistory q) (metrics q).

(** How a call ends: it returns a value, or it throws a [TypeError]. *)
Inductive completion (A : Type) :=
| Returned (a : A)
| Thrown.
Arguments Returned {A} a.
Arguments Thrown {A}.

(** [enqueue(frameData, captureTimestamp)]. [fid] is the identifier the
    call generates for the frame and [now] its clock reading (callers
    always pass [captureTimestamp]). The result is the new queue object
    and how the call ended. When the queue counts as full but is empty
    (possible only with [maxSize <= 0]), [shift()] gives [undefined] and
    reading [droppedFrame.id] for the log line throws, after
    [droppedFrames++]. *)
Definition enqueue (q : FrameQueue) (fid : string) (frameData : string)
    (captureTimestamp : Q) (now : Q) : FrameQueue * completion bool :=
  let q := incr_totalFrames q in
  let timeSinceLastProcess := (now - lastProcessTime q)%Q in
  if num_ltb (num_times (frameInterval q) 1.5) (Finite (avgProcessingTime q))
     && Nat.even (totalFrames q)
  then (updateMetrics (incr_droppedFrames q), Returned false)
  else if num_ltb (Finite timeSinceLastProcess)
            (num_times (frameInterval q) 0.8)
  then (updateMetrics (incr_droppedFrames q), Returned false)
  else
    let frame := Frame.mk fid frameData captureTimestamp now in
    if (maxSize q <=? length (queue q))%nat then
      match queue q with
      | droppedFrame :: _ =>
          let q := incr_droppedFrames (set_queue (shift (queue q)) q) in
          (updateMetrics (set_queue (queue q ++ [frame]) q), Returned true)
      | [] => (incr_droppedFrames q, Thrown)
      end
    else (updateMetrics (set_queue (queue q ++ [frame]) q), Returned true).

(** [updateProcessingTime(time)] *)
Definition updateProcessingTime (time : Q) (q : FrameQueue) : FrameQueue :=
  let times := processingTimes q ++ [time] in
  let times := if (maxProcessingTimeHistory q <? length times)%nat
               then shift times else times in
  set_processingTimes times (Qsum times / Qnat (length times)) q.

(** How the awaited call of the processing function ends: it resolves to
    a result object or to [null], at clock reading [processEnd], or it
    throws (rejects). *)
Inductive outcome :=
| Resolves (result : option DetectionResult) (processEnd : Q)
| Throws.

(** [dequeue(processFunction)] up to the call of [processFunction]:
    [None] is the early [return null]; otherwise the lock is taken, the
    head frame is removed and handed to the processing function. *)
Definition dequeue_begin (q : FrameQueue) : FrameQueue * option Frame.t :=
  if processing q || (length (queue q) =? 0)%nat then (q, None)
  else
    match queue q with
    | frame :: _ =>
        (set_queue (shift (queue q)) (set_processing true q), Some frame)
    | [] => (q, None)
    end.

(** The continuation of [dequeue] after the [await], on the queue object
    as it is when the continuation runs. *)
Definition dequeue_end (q : FrameQueue) (frame : Frame.t) (processStart : Q)
    (o : outcome) : FrameQueue * option DetectionResult :=
  match o with
  | Resolves result processEnd =>
      let processingTime := (processEnd - processStart)%Q in
      let q := updateProcessingTime processingTime q in
      let q := incr_processedFrames q in
      let q := set_lastProcessTime processEnd q in
      let result :=
        match result with
        | Some r =>
            Some {| frame_id := frame_id r; capture_ts := capture_ts r;
                    recv_ts := recv_ts r; inference_ts := inference_ts r;
                    detections := detections r; mode := mode r;
                    queueLatency :=
                      Some (processStart - Frame.queueTimestamp frame)%Q;
                    totalLatency :=
                      Some (processEnd - Frame.captureTimestamp frame)%Q;
                    frameId := Some (Frame.id frame);
                    captureTimestamp := Some (Frame.captureTimestamp frame) |}
        | None => None
        end in
      let q := updateMetrics q in
      (set_processing false q, result)
  | Throws => (set_processing false q, None)
  end.

(** A [dequeue] call that nothing interleaves with. *)
Definition dequeue (q : FrameQueue) (processStart : Q) (o : outcome)
  : FrameQueue * option DetectionResult :=
  match dequeue_begin q with
  | (q', Some frame) => dequeue_end q' frame processStart o
  | (q', None) => (q', None)
  end.

(** [setTargetFPS(fps)] *)
Definition setTargetFPS (fps : Q) (q : FrameQueue) : FrameQueue :=
  updateMetrics
    (mkFrameQueue (maxSize q) fps (queue q) (processing q)
       (lastProcessTime q) (num_div 1000 fps) (droppedFrames q)
       (processedFrames q) (totalFrames q) (avgProcessingTime q)
       (processingTimes q) (maxProcessingTimeHistory q) (metrics q)).

(** [autoAdjustFPS()] *)
Definition autoAdjustFPS (q : FrameQueue) : FrameQueue :=
  if (length (processingTimes q) <? 5)%nat then q
  else if num_ltb (num_times (frameInterval q) 1.5)
            (Finite (avgProcessingTime q))
  then setTargetFPS (Qmax 5 (targetFPS q - 1)) q
  else if num_ltb (Finite (avgProcessingTime q))
            (num_times (frameInterval q) 0.5)
          && (length (queue q) <? 2)%nat
  then setTargetFPS (Qmin 30 (targetFPS q + 1)) q
  else q.

(** ** The queue object under interleaved callers

    The capture loop calls [enqueue], the processing loop calls [dequeue]
    and [autoAdjustFPS]; a [dequeue] call is suspended at its [await]
    while other calls run. [inflight] holds the suspended [dequeue] calls
    (the frame handed to the processing function and [processStart]).
    [failed] and [samples] are bookkeeping of the model only: the number
    of calls whose processing function threw, and every processing
    duration recorded so far, oldest first. *)

Record World := mkWorld {
  fq : FrameQueue;
  inflight : list (Frame.t * Q);
  failed : nat;
  samples : list Q
}.

Inductive Op :=
| Enqueue (fid : string) (frameData : string) (captureTimestamp now : Q)
| DequeueCall (processStart : Q)
| DequeueResume (i : nat) (o : outcome)
| AutoAdjustFPS.

Definition newWorld (maxSize : nat) (targetFPS : Q) : World :=
  mkWorld (newFrameQueue maxSize targetFPS) [] 0 [].

(** One transition; [None] when the event cannot happen (there is no
    [i]-th suspended call to resume). *)
Definition step (w : World) (op : Op) : option World :=
  match op with
  | Enqueue fid frameData captureTimestamp now =>
      Some (mkWorld (fst (enqueue (fq w) fid frameData captureTimestamp now))
              (inflight w) (failed w) (samples w))
  | DequeueCall processStart =>
      match dequeue_begin (fq w) with
      | (q, Some frame) =>
          Some (mkWorld q (inflight w ++ [(frame, processStart)])
                  (failed w) (samples w))
      | (q, None) => Some (mkWorld q (inflight w) (failed w) (samples w))
      end
  | DequeueResume i o =>
      match inflight w !! i with
      | Some (frame, processStart) =>
          Some (mkWorld (fst (dequeue_end (fq w) frame processStart o))
                  (delete i (inflight w))
                  (match o with Throws => S (failed w) | _ => failed w end)
                  (match o with
                   | Resolves _ processEnd =>
                       samples w ++ [(processEnd - processStart)%Q]
                   | Throws => samples w
                   end))
      | None => None
      end
  | AutoAdjustFPS =>
      Some (mkWorld (autoAdjustFPS (fq w)) (inflight w) (failed w) (samples w))
  end.

Fixpoint run (w : World) (ops : list Op) : option World :=
  match ops with
  | [] => Some w
  | op :: ops' =>
      match step w op with
      | Some w' => run w' ops'
      | None => None
      end
  end.

(** No processing function throws in [ops]. *)
Definition is_throw (op : Op) : bool :=
  match op with
  | DequeueResume _ Throws => true
  | _ => false
  end.

Definition no_throw (ops : list Op) : bool :=
  forallb (fun op => negb (is_throw op)) ops.

(** The last [n] elements of a list. *)
Definition lastn {A} (n : nat) (l : list A) : list A :=
  drop (length l - n) l.

(** ** Signaling messages *)

Record SessionDescription := {
  sdp : string;
  sd_type : string
}.

Record IceCandidate := {
  candidate : string;
  sdpMid : string;
  sdpMLineIndex : nat
}.

Inductive SignalingMessage :=
| user_joined (client_id : string)
| user_left (client_id : string)
| offer (sender_id : option string) (data : SessionDescription)
| answer (sender_id : option string) (data : SessionDescription)
    (target_id : option string)
| ice_candidate (sender_id : option string) (data : IceCandidate)
| detection_frame (frame_id : string) (frame_data : string) (capture_ts : Q)
| detection_result (message : DetectionResult)
| detection_error (error : string)
| room_users (users : list string)
| get_room_users.

(** ** Negotiation: offers, answers and ICE candidates (App.js)

    The browser's [RTCPeerConnection] is an external collaborator. Of its
    state the model keeps the two descriptions and the log of
    [addIceCandidate] calls, in call order, each with whether the call
    succeeded. Whether a call of the collaborator succeeds is given by
    [Browser]. Each handler runs to completion. *)

Record PeerConnection := mkPeerConnection {
  remoteDescription : option SessionDescription;
  localDescription : option SessionDescription;
  addIceCandidateCalls : list (IceCandidate * bool)
}.

Record Browser := {
  setRemoteDescription_ok : SessionDescription -> bool;
  createAnswer_result : option SessionDescription;
  setLocalDescription_ok : SessionDescription -> bool;
  addIceCandidate_ok : IceCandidate -> bool
}.

Record Negotiation := mkNegotiation {
  peerConnectionRef : option PeerConnection;
  iceCandidateQueueRef : list IceCandidate;
  errors : list string;
  sentMessages : list SignalingMessage
}.

(** [setupPeerConnection()] *)
Definition setupPeerConnection : PeerConnection :=
  mkPeerConnection None None [].

Definition log_error (e : string) (n : Negotiation) : Negotiation :=
  mkNegotiation (peerConnectionRef n) (iceCandidateQueueRef n)
    (errors n ++ [e]) (sentMessages n).

(** [await peerConnectionRef.current.addIceCandidate(candidate)] inside a
    [try]: the call is logged on the connection; [false] when it threw.
    Without a connection object the member access throws. *)
Definition addIceCandidate (b : Browser) (c : IceCandidate) (n : Negotiation)
  : Negotiation * bool :=
  match peerConnectionRef n with
  | Some pc =>
      let ok := addIceCandidate_ok b c in
      (mkNegotiation
         (Some (mkPeerConnection (remoteDescription pc) (localDescription pc)
                  (addIceCandidateCalls pc ++ [(c, ok)])))
         (iceCandidateQueueRef n) (errors n) (sentMessages n), ok)
  | None => (n, false)
  end.

(** The [while] loop of [processQueuedIceCandidates], by recursion on the
    candidates still queued. *)
Fixpoint drainIceCandidates (b : Browser) (cs : list IceCandidate)
    (n : Negotiation) : Negotiation :=
  match cs with
  | [] => n
  | candidateData :: rest =>
      let n := mkNegotiation (peerConnectionRef n) rest (errors n)
                 (sentMessages n) in
      match addIceCandidate b candidateData n with
      | (n, true) => drainIceCandidates b rest n
      | (n, false) =>
          drainIceCandidates b rest
            (log_error "Failed to process queued ICE candidate" n)
      end
  end.

Definition processQueuedIceCandidates (b : Browser) (n : Negotiation)
  : Negotiation :=
  drainIceCandidates b (iceCandidateQueueRef n) n.

Definition set_remoteDescription (d : SessionDescription) (pc : PeerConnection)
  : PeerConnection :=
  mkPeerConnection (Some d) (localDescription pc) (addIceCandidateCalls pc).

Definition set_localDescription (d : SessionDescription) (pc : PeerConnection)
  : PeerConnection :=
  mkPeerConnection (remoteDescription pc) (Some d) (addIceCandidateCalls pc).

Definition set_peerConnection (pc : PeerConnection) (n : Negotiation)
  : Negotiation :=
  mkNegotiation (Some pc) (iceCandidateQueueRef n) (errors n) (sentMessages n).

Definition sendFrom (m : SignalingMessage) (n : Negotiation) : Negotiation :=
  mkNegotiation (peerConnectionRef n) (iceCandidateQueueRef n) (errors n)
    (sentMessages n ++ [m]).

(** [handleOffer(message)] *)
Definition handleOffer (b : Browser) (sender_id : option string)
    (data : SessionDescription) (n : Negotiation) : Negotiation :=
  let pc := match peerConnectionRef n with
            | Some pc => pc
            | None => setupPeerConnection
            end in
  let n := set_peerConnection pc n in
  if setRemoteDescription_ok b data then
    let pc := set_remoteDescription data pc in
    let n := set_peerConnection pc n in
    match createAnswer_result b with
    | Some answer_sd =>
        if setLocalDescription_ok b answer_sd then
          let n := set_peerConnection (set_localDescription answer_sd pc) n in
          let n := sendFrom (answer None answer_sd sender_id) n in
          processQueuedIceCandidates b n
        else log_error "Failed to handle WebRTC offer" n
    | None => log_error "Failed to handle WebRTC offer" n
    end
  else log_error "Failed to handle WebRTC offer" n.

(** [handleAnswer(message)] *)
Definition handleAnswer (b : Browser) (data : SessionDescription)
    (n : Negotiation) : Negotiation :=
  match peerConnectionRef n with
  | None => log_error "Failed to handle WebRTC answer" n
  | Some pc =>
      if setRemoteDescription_ok b data
      then set_peerConnection (set_remoteDescription data pc) n
      else log_error "Failed to handle WebRTC answer" n
  end.

(** [handleIceCandidate(message)] *)
Definition handleIceCandidate (b : Browser) (data : IceCandidate)
    (n : Negotiation) : Negotiation :=
  match peerConnectionRef n with
  | None => log_error "Failed to handle ICE candidate" n
  | Some pc =>
      match remoteDescription pc with
      | None =>
          mkNegotiation (peerConnectionRef n) (iceCandidateQueueRef n ++ [data])
            (errors n) (sentMessages n)
      | Some _ =>
          match addIceCandidate b data n with
          | (n, true) => n
          | (n, false) => log_error "Failed to handle ICE candidate" n
          end
      end
  end.


(** The candidates [addIceCandidate] was called with, in call order. *)
Definition candidatesAdded (n : Negotiation) : list IceCandidate :=
  match peerConnectionRef n with
  | Some pc => map fst (addIceCandidateCalls pc)
  | None => []
  end.

(** ** Signaling transports and the pending offer (App.js)

    What a [send] returns is tested with [if (...)], so the model keeps
    the kind of value returned: the WebSocket wrapper's [send] is a plain
    function returning a boolean, [HTTPSignaling.send] is [async] and
    returns a Promise that later resolves to a boolean. *)

Inductive jsval :=
| JSBool (b : bool)
| JSPromise (resolvesTo : bool).

(** [ToBoolean]: every object, a Promise included, is truthy. *)
Definition truthy (v : jsval) : bool :=
  match v with
  | JSBool b => b
  | JSPromise _ => true
  end.

Inductive Transport := WebSocketTransport | HTTPTransport.

(** One use of a transport: the message and whether it was delivered. *)
Record SendAttempt := mkSendAttempt {
  via : Transport;
  sent : SignalingMessage;
  delivered : bool
}.

Record Signaling := mkSignaling {
  signalingRef : option Transport;
  wsOpen : bool;
  pendingOffer : option SignalingMessage;
  wire : list SendAttempt
}.

(** [wsWrapper.send(message)] *)
Definition wsWrapper_send (m : SignalingMessage) (s : Signaling)
  : Signaling * jsval :=
  if wsOpen s
  then (mkSignaling (signalingRef s) (wsOpen s) (pendingOffer s)
          (wire s ++ [mkSendAttempt WebSocketTransport m true]),
        JSBool true)
  else (s, JSBool false).

(** [httpSignaling.send(message)]; [postOk] is whether the POST will
    succeed ([response.ok], and [false] when [fetch] throws). *)
Definition httpSignaling_send (postOk : bool) (m : SignalingMessage)
    (s : Signaling) : Signaling * jsval :=
  (mkSignaling (signalingRef s) (wsOpen s) (pendingOffer s)
     (wire s ++ [mkSendAttempt HTTPTransport m postOk]),
   JSPromise postOk).

Definition delete_pendingOffer (s : Signaling) : Signaling :=
  mkSignaling (signalingRef s) (wsOpen s) None (wire s).

(** [ws.onopen] *)
Definition ws_onopen (s : Signaling) : Signaling :=
  let s := mkSignaling (Some WebSocketTransport) true (pendingOffer s)
             (wire s) in
  let s := fst (wsWrapper_send get_room_users s) in
  match pendingOffer s with
  | Some pending =>
      match wsWrapper_send pending s with
      | (s, r) => if truthy r then delete_pendingOffer s else s
      end
  | None => s
  end.

(** [initHTTPSignaling(roomId)] after [await httpSignaling.connect()]
    has given [connected]. *)
Definition initHTTPSignaling (connected : bool) (postOk : bool)
    (s : Signaling) : Signaling :=
  if connected then
    let s := mkSignaling (Some HTTPTransport) (wsOpen s) (pendingOffer s)
               (wire s) in
    match pendingOffer s with
    | Some pending =>
        match httpSignaling_send postOk pending s with
        | (s, r) => if truthy r then delete_pendingOffer s else s
        end
    | None => s
    end
  else s.

(** [sendSignalingMessage(message)] *)
Definition sendSignalingMessage (postOk : bool) (m : SignalingMessage)
    (s : Signaling) : Signaling * jsval :=
  match signalingRef s with
  | Some WebSocketTransport => wsWrapper_send m s
  | Some HTTPTransport => httpSignaling_send postOk m s
  | None => (s, JSBool false)
  end.

(** The end of [startLocalCamera]: send the offer, or store it. *)
Definition startLocalCamera_sendOffer (postOk : bool)
    (offerMsg : SignalingMessage) (s : Signaling) : Signaling :=
  match sendSignalingMessage postOk offerMsg s with
  | (s, offerSent) =>
      if truthy offerSent then s
      else mkSignaling (signalingRef s) (wsOpen s) (Some offerMsg) (wire s)
  end.

(** A transport becoming ready. *)
Inductive ReadyEvent :=
| WsOpen
| HttpConnected (postOk : bool).

Definition onReady (s : Signaling) (e : ReadyEvent) : Signaling :=
  match e with
  | WsOpen => ws_onopen s
  | HttpConnected postOk => initHTTPSignaling true postOk s
  end.

(** The attempts at sending an offer, in order. *)
Definition is_offer (m : SignalingMessage) : bool :=
  match m with
  | offer _ _ => true
  | _ => false
  end.

Definition offerAttempts (wire : list SendAttempt) : list SendAttempt :=
  List.filter (fun a => is_offer (sent a)) wire.

(** ** Remote detection: requests, timeouts and results (App.js)

    A Promise is either pending ([None]) or settled with a value; the
    value of a detection Promise is a result or [null]. Promises are
    numbered in the order they are created. [window.pendingDetections]
    maps a frame id to the [resolve] function of a Promise, that is to
    its number; it is [None] while the property is undefined. The 5000 ms
    timer of a request is the event [timeoutFires]. *)

Inductive DetectionMode := ServerMode | WasmMode.

Module AppMetrics.
Record t := mk {
  fps : Q;
  latency : Z;
  detectionCount : nat;
  bandwidth : Q
}.
End AppMetrics.

Record Dispatcher := mkDispatcher {
  signalingUp : bool;
  pendingDetections : option (gmap string nat);
  promises : list (option (option DetectionResult));
  resolveCalls : list (nat * option DetectionResult);
  outbox : list SignalingMessage;
  latencies : list Q;
  detectionTimes : list Q;
  shownDetections : list Detection;
  appMetrics : AppMetrics.t;
  detectionMode : DetectionMode;
  wasmActualFPS : Q
}.

(** Calling the [resolve] function of Promise [p] with [v]: the call is
    logged; it settles the Promise only if it is still pending. *)
Definition resolve (p : nat) (v : option DetectionResult) (d : Dispatcher)
  : Dispatcher :=
  mkDispatcher (signalingUp d) (pendingDetections d)
    (match promises d !! p with
     | Some None => <[p := Some v]> (promises d)
     | _ => promises d
     end)
    (resolveCalls d ++ [(p, v)]) (outbox d) (latencies d) (detectionTimes d)
    (shownDetections d) (appMetrics d) (detectionMode d) (wasmActualFPS d).

Definition set_pendingDetections (t : option (gmap string nat))
    (d : Dispatcher) : Dispatcher :=
  mkDispatcher (signalingUp d) t (promises d) (resolveCalls d) (outbox d)
    (latencies d) (detectionTimes d) (shownDetections d) (appMetrics d)
    (detectionMode d) (wasmActualFPS d).

(** [window.pendingDetections && window.pendingDetections[frameId]] *)
Definition lookupPending (frameId : string) (d : Dispatcher) : option nat :=
  match pendingDetections d with
  | Some t => t !! frameId
  | None => None
  end.

(** [delete window.pendingDetections[frameId]] *)
Definition deletePending (frameId : string) (d : Dispatcher) : Dispatcher :=
  set_pendingDetections
    (match pendingDetections d with
     | Some t => Some (delete frameId t)
     | None => None
     end) d.

(** [processServerDetection(frame)]: the new state and the number of the
    Promise returned. *)
Definition processServerDetection (frame : Frame.t) (d : Dispatcher)
  : Dispatcher * nat :=
  let p := length (promises d) in
  let d := mkDispatcher (signalingUp d) (pendingDetections d)
             (promises d ++ [None]) (resolveCalls d) (outbox d) (latencies d)
             (detectionTimes d) (shownDetections d) (appMetrics d)
             (detectionMode d) (wasmActualFPS d) in
  if signalingUp d then
    let frameId := Frame.id frame in
    let t := match pendingDetections d with
             | Some t => t
             | None => ∅
             end in
    let d := set_pendingDetections (Some (<[frameId := p]> t)) d in
    let d := mkDispatcher (signalingUp d) (pendingDetections d) (promises d)
               (resolveCalls d)
               (outbox d ++ [detection_frame frameId (Frame.data frame)
                               (Frame.captureTimestamp frame)])
               (latencies d) (detectionTimes d) (shownDetections d)
               (appMetrics d) (detectionMode d) (wasmActualFPS d) in
    (d, p)
  else (resolve p None d, p).

(** The timer callback of the request for [frameId] that returned
    Promise [p]. *)
Definition timeoutFires (frameId : string) (p : nat) (d : Dispatcher)
  : Dispatcher :=
  match lookupPending frameId d with
  | Some _ => resolve p None (deletePending frameId d)
  | None => d
  end.

(** [Math.round] *)
Definition Math_round (x : Q) : Z := Qfloor (x + (1 # 2))%Q.

(** [handleDetectionResult(result)] at clock reading [now] (drawing on
    the canvas is outside the model). *)
Definition handleDetectionResult (now : Q) (result : DetectionResult)
    (d : Dispatcher) : Dispatcher :=
  let e2eLatency := (now - capture_ts result)%Q in
  let serverLatency := (inference_ts result - recv_ts result)%Q in
  let lat := latencies d ++ [e2eLatency] in
  let det := detectionTimes d ++ [serverLatency] in
  let over := (100 <? length lat)%nat in
  let lat := if over then shift lat else lat in
  let det := if over then shift det else det in
  let prev := appMetrics d in
  let modeFPS := match detectionMode d with
                 | WasmMode =>
                     if Qeq_bool (wasmActualFPS d) 0 then AppMetrics.fps prev
                     else wasmActualFPS d
                 | ServerMode => AppMetrics.fps prev
                 end in
  mkDispatcher (signalingUp d) (pendingDetections d) (promises d)
    (resolveCalls d) (outbox d) lat det (detections result)
    (AppMetrics.mk modeFPS (Math_round e2eLatency)
       (length (detections result))
       (if String.eqb (mode result) "wasm" then 0%Q
        else AppMetrics.bandwidth prev))
    (detectionMode d) (wasmActualFPS d).

(** The [detection_result] case of [handleSignalingMessage]. *)
Definition onDetectionResult (now : Q) (message : DetectionResult)
    (d : Dispatcher) : Dispatcher :=
  match lookupPending (frame_id message) d with
  | Some p => deletePending (frame_id message) (resolve p (Some message) d)
  | None => handleDetectionResult now message d
  end.

(** The calls of [resolve] on Promise [p], in order. *)
Definition resolveCallsOn (p : nat) (d : Dispatcher)
  : list (nat * option DetectionResult) :=
  List.filter (fun c => (fst c =? p)%nat) (resolveCalls d).

(** ** The two submission gates of [enqueue], as conditions on the queue
    object the call finds *)

(** The adaptive-thinning drop fires: processing is slower than 1.5 frame
    intervals and the frame's ordinal is even. *)
Definition thinning_active (q : FrameQueue) : bool :=
  num_ltb (num_times (frameInterval q) 1.5) (Finite (avgProcessingTime q)).

Definition thinning_drops (q : FrameQueue) : bool :=
  thinning_active q && Nat.even (S (totalFrames q)).

(** The interval gate fires: less than 0.8 frame intervals since the last
    processed frame. *)
Definition interval_gate_drops (q : FrameQueue) (now : Q) : bool :=
  num_ltb (Finite (now - lastProcessTime q))
    (num_times (frameInterval q) 0.8).

(** ** Invariants, and the inputs of the examples *)

(** The queue never holds more than [maxSize] frames. *)
Definition bounded (m : nat) (w : World) : Prop :=
  maxSize (fq w) = m /\ (length (queue (fq w)) <= m)%nat.

(** Every submitted frame is accounted for: processed, counted as
    dropped, still queued, handed to a processing function that has not
    returned yet, or handed to one that threw. *)
Definition accounted (w : World) : Prop :=
  (processedFrames (fq w) + droppedFrames (fq w) + length (queue (fq w))
   + length (inflight w) + failed w)%nat
  = totalFrames (fq w).

(** The window kept by the queue object is the last 10 recorded
    durations, and the stored average is their sum over their number. *)
Definition window_ok (w : World) : Prop :=
  maxProcessingTimeHistory (fq w) = 10%nat
  /\ processingTimes (fq w) = lastn 10 (samples w)
  /\ (samples w <> [] ->
      avgProcessingTime (fq w)
      = (Qsum (lastn 10 (samples w))
         / Qnat (length (lastn 10 (samples w))))%Q).

(** The scenario of the specification: a queue for 15 frames per second
    on which five frames are processed, each taking 200 ms. The frames
    whose ordinal is even are dropped at submission as soon as the first
    duration is recorded, so nine frames are submitted. *)
Definition slow_round (k : Z) : list Op :=
  let t := (inject_Z k * 1000)%Q in
  [Enqueue "odd" "jpeg" t t; DequeueCall t;
   DequeueResume 0 (Resolves None (t + 200)%Q);
   Enqueue "even" "jpeg" (t + 500)%Q (t + 500)%Q].

Definition scenario_200ms : list Op :=
  slow_round 1 ++ slow_round 2 ++ slow_round 3 ++ slow_round 4
  ++ [Enqueue "odd" "jpeg" 5000 5000; DequeueCall 5000;
      DequeueResume 0 (Resolves None 5200)].

(** The target rate is within its bounds and the frame interval is the
    one of the target rate. *)
Definition rate_ok (w : World) : Prop :=
  (5 <= targetFPS (fq w))%Q /\ (targetFPS (fq w) <= 30)%Q
  /\ frameInterval (fq w) = num_div 1000 (targetFPS (fq w)).


(** The messages [cs] arriving one after the other. *)
Definition receiveCandidates (b : Browser) (cs : list IceCandidate)
    (n : Negotiation) : Negotiation :=
  foldl (fun n c => handleIceCandidate b c n) n cs.

Definition all_ok : Browser :=
  {| setRemoteDescription_ok := fun _ => true;
     createAnswer_result := Some {| sdp := "v=0 answer"; sd_type := "answer" |};
     setLocalDescription_ok := fun _ => true;
     addIceCandidate_ok := fun _ => true |}.

Definition three_candidates : list IceCandidate :=
  [ {| candidate := "candidate:1"; sdpMid := "0"; sdpMLineIndex := 0 |};
    {| candidate := "candidate:2"; sdpMid := "0"; sdpMLineIndex := 0 |};
    {| candidate := "candidate:3"; sdpMid := "0"; sdpMLineIndex := 0 |} ].

Definition an_offer : SignalingMessage :=
  offer None {| sdp := "v=0 offer"; sd_type := "offer" |}.

(** Every logged [resolve] call is on a Promise that exists. *)
Definition resolve_log_wf (d : Dispatcher) : Prop :=
  Forall (fun c => (fst c < length (promises d))%nat) (resolveCalls d).

Definition idle_dispatcher : Dispatcher :=
  mkDispatcher true None [] [] [] [] [] [] (AppMetrics.mk 0 0 0 0)
    ServerMode 0.

Definition frame_1 : Frame.t := Frame.mk "frame_1" "jpeg" 1000 1001.

Definition late_result : DetectionResult :=
  {| frame_id := "frame_1"; capture_ts := 1000; recv_ts := 1100;
     inference_ts := 1300;
     detections := [ {| class_name := "person"; confidence := 0.9;
                        bbox := (0, 0, 10, 10)%Q |} ];
     mode := "server";
     queueLatency := None; totalLatency := None; frameId := None;
     captureTimestamp := None |}.

(** ** More of FrameQueue (utils/frameQueue.js) *)

(** [getMetrics()]: a copy of the stored snapshot. *)
Definition getMetrics (q : FrameQueue) : Metrics.t := metrics q.

(** [clear()] *)
Definition clear (q : FrameQueue) : FrameQueue :=
  updateMetrics
    (mkFrameQueue (maxSize q) (targetFPS q) [] false
       (lastProcessTime q) (frameInterval q) 0 0 0 0 []
       (maxProcessingTimeHistory q) (metrics q)).

(** [isOverloaded()] *)
Definition isOverloaded (q : FrameQueue) : bool :=
  num_ltb (num_times (frameInterval q) 2) (Finite (avgProcessingTime q))
  || (maxSize q <=? length (queue q))%nat.

(** The frame an [Enqueue] event submits. *)
Definition submitted_by (op : Op) : list Frame.t :=
  match op with
  | Enqueue fid frameData captureTimestamp now =>
      [Frame.mk fid frameData captureTimestamp now]
  | _ => []
  end.

Definition submitted (ops : list Op) : list Frame.t :=
  flat_map submitted_by ops.

(** The frame a [DequeueCall] event hands to the processing function. *)
Definition handed_by (w : World) (op : Op) : list Frame.t :=
  match op with
  | DequeueCall _ =>
      match snd (dequeue_begin (fq w)) with
      | Some frame => [frame]
      | None => []
      end
  | _ => []
  end.

(** The frames handed to the processing function along a run, in order. *)
Fixpoint handed (w : World) (ops : list Op) : list Frame.t :=
  match ops with
  | [] => []
  | op :: ops' =>
      handed_by w op
      ++ match step w op with
         | Some w' => handed w' ops'
         | None => []
         end
  end.

(** The stored snapshot agrees with the counters, and does not
    under-report the queue. *)
Definition metrics_current (q : FrameQueue) : Prop :=
  Metrics.droppedFrames (metrics q) = droppedFrames q
  /\ Metrics.processedFrames (metrics q) = processedFrames q
  /\ Metrics.dropRate (metrics q)
     = (if (0 <? totalFrames q)%nat
        then (Qnat (droppedFrames q) / Qnat (totalFrames q) * 100)%Q
        else 0%Q)
  /\ Metrics.avgProcessingTime (metrics q) = avgProcessingTime q
  /\ Metrics.targetFPS (metrics q) = targetFPS q
  /\ Metrics.actualFPS (metrics q) = calculateActualFPS q
  /\ (length (queue q) <= Metrics.queueLength (metrics q))%nat.

(** The drop rate of the snapshot is a percentage. *)
Definition dropRate_in_range (w : World) : Prop :=
  (0 <= Metrics.dropRate (metrics (fq w)))%Q
  /\ (Metrics.dropRate (metrics (fq w)) <= 100)%Q.

(** The recorded durations are not negative. *)
Definition durations_nonneg (w : World) : Prop :=
  Forall (fun d => (0 <= d)%Q) (samples w).

(** ** More of the negotiation (App.js) *)


(** What [stopSession] does to the negotiation state: the connection is
    closed and the reference cleared; the candidate buffer is not
    touched. *)
Definition stopSession_negotiation (n : Negotiation) : Negotiation :=
  mkNegotiation None (iceCandidateQueueRef n) (errors n) (sentMessages n).

(** The error an interrupted [processQueuedIceCandidates] step logs. *)
Definition queued_candidate_error : string :=
  "Failed to process queued ICE candidate".

(** ** The HTTP signaling fallback (class HTTPSignaling in App.js)

    [setInterval] hands out timer identifiers; [activeIntervals] are the
    timers that are running. [statusLog] are the calls of
    [onStatusChange] and [requests] the HTTP requests made, oldest
    first. *)

Module HTTPSignaling.

Inductive Status := StatusConnected | StatusDisconnected | StatusError.

Inductive Request :=
| Join (roomId clientId : string)
| Leave (roomId clientId : string).

(** How the join request of [connect] ends: an ok response, a response
    that is not ok, or an exception (network error, unreadable body). *)
Inductive JoinOutcome := JoinOk | JoinNotOk | JoinThrows.

Record t := mk {
  roomId : string;
  clientId : string;
  polling : bool;
  pollInterval : option nat;
  connected : bool;
  activeIntervals : list nat;
  nextTimer : nat;
  statusLog : list Status;
  requests : list Request
}.

(** [new HTTPSignaling(roomId, clientId, ...)] in a browser whose next
    timer identifier is [nextTimer]. *)
Definition new (roomId clientId : string) (nextTimer : nat) : t :=
  mk roomId clientId false None false [] nextTimer [] [].

(** [startPolling()] *)
Definition startPolling (h : t) : t :=
  if polling h then h
  else mk (roomId h) (clientId h) true (Some (nextTimer h)) (connected h)
         (activeIntervals h ++ [nextTimer h]) (S (nextTimer h))
         (statusLog h) (requests h).

(** [connect()]: the new state and the returned boolean. *)
Definition connect (o : JoinOutcome) (h : t) : t * bool :=
  let h := mk (roomId h) (clientId h) (polling h) (pollInterval h)
             (connected h) (activeIntervals h) (nextTimer h) (statusLog h)
             (requests h ++ [Join (roomId h) (clientId h)]) in
  match o with
  | JoinOk =>
      let h := mk (roomId h) (clientId h) (polling h) (pollInterval h)
                 true (activeIntervals h) (nextTimer h)
                 (statusLog h ++ [StatusConnected]) (requests h) in
      (startPolling h, true)
  | JoinNotOk => (h, false)
  | JoinThrows =>
      (mk (roomId h) (clientId h) (polling h) (pollInterval h)
         (connected h) (activeIntervals h) (nextTimer h)
         (statusLog h ++ [StatusError]) (requests h), false)
  end.

(** A non-empty string is truthy. *)
Definition nonempty (s : string) : bool :=
  match s with
  | EmptyString => false
  | _ => true
  end.

(** [close()]. [if (this.pollInterval)] is false for an identifier 0
    as well as for [null]. *)
Definition close (h : t) : t :=
  let active := match pollInterval h with
                | Some (S id) => List.filter (fun i => negb (i =? S id)%nat)
                                   (activeIntervals h)
                | _ => activeIntervals h
                end in
  mk (roomId h) (clientId h) false (pollInterval h) false active
    (nextTimer h) (statusLog h ++ [StatusDisconnected])
    (if nonempty (clientId h) && nonempty (roomId h)
     then requests h ++ [Leave (roomId h) (clientId h)]
     else requests h).

Inductive Call :=
| Connect (o : JoinOutcome)
| StartPolling
| Close.

Definition call (h : t) (c : Call) : t :=
  match c with
  | Connect o => fst (connect o h)
  | StartPolling => startPolling h
  | Close => close h
  end.

(** At most one poll timer runs, the one [pollInterval] names, and
    exactly while [polling] is set. *)
Definition one_timer (h : t) : Prop :=
  (polling h = false /\ activeIntervals h = [])
  \/ (polling h = true
      /\ exists id, (1 <= id)%nat /\ pollInterval h = Some id
                    /\ activeIntervals h = [id]).

End HTTPSignaling.

(** ** More of the detection dispatch (App.js) *)

(** What [stopSession] does to the dispatch state: the pending table is
    replaced by an empty one (if there is one), the displayed metrics
    and detections are reset. *)
Definition stopSession_dispatcher (d : Dispatcher) : Dispatcher :=
  mkDispatcher (signalingUp d)
    (match pendingDetections d with
     | Some _ => Some ∅
     | None => None
     end)
    (promises d) (resolveCalls d) (outbox d) (latencies d)
    (detectionTimes d) [] (AppMetrics.mk 0 0 0 0) (detectionMode d)
    (wasmActualFPS d).

(** What can happen to the dispatcher once requests have been made. *)
Inductive DispatchEvent :=
| TimerFires (frameId : string) (p : nat)
| ResultArrives (now : Q) (message : DetectionResult).

Definition dispatch (d : Dispatcher) (e : DispatchEvent) : Dispatcher :=
  match e with
  | TimerFires frameId p => timeoutFires frameId p d
  | ResultArrives now message => onDetectionResult now message d
  end.

(** The end-to-end latency [handleDetectionResult] records for a result
    handled at [now]. *)
Definition e2e (r : Q * DetectionResult) : Q :=
  (fst r - capture_ts (snd r))%Q.

(** The inference latency it records. *)
Definition server_latency (r : Q * DetectionResult) : Q :=
  (inference_ts (snd r) - recv_ts (snd r))%Q.

Definition handleAll (rs : list (Q * DetectionResult)) (d : Dispatcher)
  : Dispatcher :=
  foldl (fun d r => handleDetectionResult (fst r) (snd r) d) d rs.

(** ** Parsing the model outputs (utils/wasmDetection.js)

    An array element is [None] when the index is past the end of the
    array ([undefined]); arithmetic on it gives [NaN], also [None].
    How JavaScript prints a number in a template string is the
    parameter [numberToString]. *)

Module Wasm.

Definition COCO_CLASSES : list string :=
  ["person"; "bicycle"; "car"; "motorcycle"; "airplane"; "bus"; "train";
   "truck"; "boat"; "traffic light"; "fire hydrant"; "stop sign";
   "parking meter"; "bench"; "bird"; "cat"; "dog"; "horse"; "sheep"; "cow";
   "elephant"; "bear"; "zebra"; "giraffe"; "backpack"; "umbrella";
   "handbag"; "tie"; "suitcase"; "frisbee"; "skis"; "snowboard";
   "sports ball"; "kite"; "baseball bat"; "baseball glove"; "skateboard";
   "surfboard"; "tennis racket"; "bottle"; "wine glass"; "cup"; "fork";
   "knife"; "spoon"; "bowl"; "banana"; "apple"; "sandwich"; "orange";
   "broccoli"; "carrot"; "hot dog"; "pizza"; "donut"; "cake"; "chair";
   "couch"; "potted plant"; "bed"; "dining table"; "toilet"; "tv"; "laptop";
   "mouse"; "remote"; "keyboard"; "cell phone"; "microwave"; "oven";
   "toaster"; "sink"; "refrigerator"; "book"; "clock"; "vase"; "scissors";
   "teddy bear"; "hair drier"; "toothbrush"].

Record BBox := mkBBox {
  x1 : option Q;
  y1 : option Q;
  x2 : option Q;
  y2 : option Q;
  width : option Q;
  height : option Q
}.

Record Detection := mkDetection {
  class_id : option Z;
  class_name : string;
  confidence : option Q;
  bbox : BBox
}.

(** The [data] of the four output tensors; [None] when the tensor is
    missing from the results. *)
Record Results := mkResults {
  boxes : option (list Q);
  classes : option (list Q);
  scores : option (list Q);
  numDetections : option (list Q)
}.

(** [x * 300] *)
Definition times300 (x : option Q) : option Q :=
  match x with
  | Some x => Some (x * 300)%Q
  | None => None
  end.

(** [(b - a) * 300] *)
Definition span300 (a b : option Q) : option Q :=
  match a, b with
  | Some a, Some b => Some ((b - a) * 300)%Q
  | _, _ => None
  end.

(** [Math.floor(x)] *)
Definition Math_floor (x : option Q) : option Z :=
  match x with
  | Some x => Some (Qfloor x)
  | None => None
  end.

(** [COCO_CLASSES[id] || `class_${id}`] *)
Definition className (numberToString : option Z -> string) (id : option Z)
  : string :=
  match id with
  | Some z =>
      if (0 <=? z)%Z then
        match COCO_CLASSES !! Z.to_nat z with
        | Some name => name
        | None => "class_" +:+ numberToString id
        end
      else "class_" +:+ numberToString id
  | None => "class_" +:+ numberToString id
  end.

(** [score < confidenceThreshold] *)
Definition below (score : option Q) (confidenceThreshold : Q) : bool :=
  match score with
  | Some s => Qltb s confidenceThreshold
  | None => false
  end.

(** The body of the loop for index [i]. *)
Definition detectionAt (numberToString : option Z -> string)
    (boxes classes scores : list Q) (i : nat) : Detection :=
  let score := scores !! i in
  let y1 := boxes !! (i * 4)%nat in
  let x1 := boxes !! (i * 4 + 1)%nat in
  let y2 := boxes !! (i * 4 + 2)%nat in
  let x2 := boxes !! (i * 4 + 3)%nat in
  mkDetection (Math_floor (classes !! i))
    (className numberToString (Math_floor (classes !! i)))
    score
    (mkBBox (times300 x1) (times300 y1) (times300 x2) (times300 y2)
       (span300 x1 x2) (span300 y1 y2)).

(** [for (let i = ...; i < bound; i++)], at most [fuel] more rounds. *)
Fixpoint loop (numberToString : option Z -> string)
    (boxes classes scores : list Q) (confidenceThreshold bound : Q)
    (fuel i : nat) (detections : list Detection) : list Detection :=
  match fuel with
  | O => detections
  | S fuel' =>
      if Qltb (Qnat i) bound then
        if below (scores !! i) confidenceThreshold
        then loop numberToString boxes classes scores confidenceThreshold
               bound fuel' (S i) detections
        else loop numberToString boxes classes scores confidenceThreshold
               bound fuel' (S i)
               (detections
                ++ [detectionAt numberToString boxes classes scores i])
      else detections
  end.

(** [parseDetections(results, confidenceThreshold)]. The bound of the
    loop is [Math.min(numDetections, 100)], so 100 rounds are enough; a
    missing tensor makes the body throw, and the [catch] returns [[]]. *)
Definition parseDetections (numberToString : option Z -> string)
    (results : Results) (confidenceThreshold : Q) : list Detection :=
  match boxes results, classes results, scores results,
        numDetections results with
  | Some boxes, Some classes, Some scores, Some num =>
      match num !! 0%nat with
      | Some numDetections =>
          loop numberToString boxes classes scores confidenceThreshold
            (Qmin numDetections 100) 100 0 []
      | None => []
      end
  | _, _, _, _ => []
  end.

End Wasm.

(** ** connectSignaling: when the HTTP fallback is started (App.js)

    [httpStarts] counts the calls of [initHTTPSignaling] made by the
    handlers of one [connectSignaling] call. The browser has set the
    socket's [readyState] before it fires [open] or [close]. *)

Record Fallback := mkFallback {
  channel : Signaling;
  httpStarts : nat
}.

Inductive WsEvent :=
| WsOpened
| WsError
| WsClosed
| WsTimeout
| HttpConnectDone (connected : bool) (postOk : bool).

(** [ws.onerror] *)
Definition ws_onerror (f : Fallback) : Fallback :=
  mkFallback (channel f) (S (httpStarts f)).

(** [ws.onclose] *)
Definition ws_onclose (f : Fallback) : Fallback :=
  let c := mkSignaling (signalingRef (channel f)) false
             (pendingOffer (channel f)) (wire (channel f)) in
  match signalingRef c with
  | None | Some WebSocketTransport => mkFallback c (S (httpStarts f))
  | Some HTTPTransport => mkFallback c (httpStarts f)
  end.

(** The callback of the 3000 ms timer. *)
Definition ws_timeout (f : Fallback) : Fallback :=
  if negb (wsOpen (channel f))
  then mkFallback (channel f) (S (httpStarts f))
  else f.

Definition onWsEvent (f : Fallback) (e : WsEvent) : Fallback :=
  match e with
  | WsOpened => mkFallback (ws_onopen (channel f)) (httpStarts f)
  | WsError => ws_onerror f
  | WsClosed => ws_onclose f
  | WsTimeout => ws_timeout f
  | HttpConnectDone connected postOk =>
      mkFallback (initHTTPSignaling connected postOk (channel f))
        (httpStarts f)
  end.

Definition is_WsOpened (e : WsEvent) : bool :=
  match e with WsOpened => true | _ => false end.

Definition is_WsError (e : WsEvent) : bool :=
  match e with WsError => true | _ => false end.

Definition is_WsClosed (e : WsEvent) : bool :=
  match e with WsClosed => true | _ => false end.

Definition is_WsTimeout (e : WsEvent) : bool :=
  match e with WsTimeout => true | _ => false end.

(** ** Inputs of the further examples *)

Definition refuses_second : Browser :=
  {| setRemoteDescription_ok := fun _ => true;
     createAnswer_result := Some {| sdp := "v=0 answer"; sd_type := "answer" |};
     setLocalDescription_ok := fun _ => true;
     addIceCandidate_ok :=
       fun c => negb (String.eqb (candidate c) "candidate:2") |}.

Definition rejects_offers : Browser :=
  {| setRemoteDescription_ok := fun _ => false;
     createAnswer_result := None;
     setLocalDescription_ok := fun _ => true;
     addIceCandidate_ok := fun _ => true |}.

Definition two_outputs : Wasm.Results :=
  Wasm.mkResults
    (Some [0.1; 0.2; 0.5; 0.6; 0; 0; 1; 1]%Q)
    (Some [0; 17]%Q)
    (Some [0.9; 0.3]%Q)
    (Some [2]%Q).

(** * Proofs *)

Lemma Qltb_true (a b : Q) : Qltb a b = true <-> (a < b)%Q.
Proof.
  unfold Qltb. rewrite negb_true_iff. split.
  - intros H. apply Qnot_le_lt. intros Hle.
    apply Qle_bool_iff in Hle. congruence.
  - intros H. destruct (Qle_bool b a) eqn:E; [|reflexivity].
    apply Qle_bool_iff in E. exfalso. exact (Qlt_not_le _ _ H E).
Qed.

Lemma Qltb_false (a b : Q) : Qltb a b = false <-> (b <= a)%Q.
Proof.
  unfold Qltb. rewrite negb_false_iff. apply Qle_bool_iff.
Qed.

Lemma num_lt_finite (a b : Q) : num_lt (Finite a) (Finite b) <-> (a < b)%Q.
Proof. apply Qltb_true. Qed.

Lemma num_div_finite (a b : Q) : ~ (b == 0)%Q -> num_div a b = Finite (a / b).
Proof.
  intros Hb. unfold num_div. destruct (Qeq_bool b 0) eqn:E; [|reflexivity].
  apply Qeq_bool_iff in E. contradiction.
Qed.

(** ** What one [enqueue] does *)

Ltac fq_simpl :=
  cbn [maxSize targetFPS queue processing lastProcessTime frameInterval
       droppedFrames processedFrames totalFrames avgProcessingTime
       processingTimes maxProcessingTimeHistory metrics
       updateMetrics set_metrics set_queue set_processing
       set_lastProcessTime incr_droppedFrames incr_processedFrames
       incr_totalFrames set_processingTimes setTargetFPS
       fq inflight failed samples fst snd] in *.

Lemma enqueue_dropped q fid frameData captureTimestamp now :
  thinning_drops q || interval_gate_drops q now = true ->
  enqueue q fid frameData captureTimestamp now
  = (updateMetrics (incr_droppedFrames (incr_totalFrames q)), Returned false).
Proof.
  unfold thinning_drops, thinning_active, interval_gate_drops, enqueue.
  fq_simpl. intros H.
  destruct (num_ltb (num_times (frameInterval q) 1.5)
              (Finite (avgProcessingTime q))
            && Nat.even (S (totalFrames q))); [reflexivity|].
  cbn [orb] in H. rewrite H. reflexivity.
Qed.

Lemma enqueue_accepted q fid frameData captureTimestamp now :
  thinning_drops q || interval_gate_drops q now = false ->
  enqueue q fid frameData captureTimestamp now
  = (let frame := Frame.mk fid frameData captureTimestamp now in
     let q1 := incr_totalFrames q in
     if (maxSize q <=? length (queue q))%nat then
       match queue q with
       | droppedFrame :: rest =>
           (updateMetrics
              (set_queue (rest ++ [frame])
                 (incr_droppedFrames (set_queue rest q1))), Returned true)
       | [] => (incr_droppedFrames q1, Thrown)
       end
     else (updateMetrics (set_queue (queue q ++ [frame]) q1), Returned true)).
Proof.
  unfold thinning_drops, thinning_active, interval_gate_drops, enqueue.
  fq_simpl. intros H. apply orb_false_iff in H as [H1 H2].
  rewrite H1, H2. destruct (queue q); reflexivity.
Qed.

(** The fields [enqueue] never writes, and the four ways it can end. *)
Lemma enqueue_cases q fid frameData captureTimestamp now :
  let r := enqueue q fid frameData captureTimestamp now in
  let frame := Frame.mk fid frameData captureTimestamp now in
  (maxSize (fst r) = maxSize q
   /\ processing (fst r) = processing q
   /\ processedFrames (fst r) = processedFrames q
   /\ totalFrames (fst r) = S (totalFrames q)
   /\ targetFPS (fst r) = targetFPS q
   /\ frameInterval (fst r) = frameInterval q
   /\ avgProcessingTime (fst r) = avgProcessingTime q
   /\ processingTimes (fst r) = processingTimes q
   /\ maxProcessingTimeHistory (fst r) = maxProcessingTimeHistory q)
  /\ ((snd r = Returned false /\ queue (fst r) = queue q
       /\ droppedFrames (fst r) = S (droppedFrames q))
      \/ (snd r = Returned true /\ (length (queue q) < maxSize q)%nat
          /\ queue (fst r) = queue q ++ [frame]
          /\ droppedFrames (fst r) = droppedFrames q)
      \/ (snd r = Returned true /\ (maxSize q <= length (queue q))%nat
          /\ (exists oldest rest,
                queue q = oldest :: rest /\ queue (fst r) = rest ++ [frame])
          /\ droppedFrames (fst r) = S (droppedFrames q))
      \/ (snd r = Thrown /\ maxSize q = 0%nat /\ queue q = []
          /\ queue (fst r) = []
          /\ droppedFrames (fst r) = S (droppedFrames q))).
Proof.
  intros r frame. subst r.
  destruct (thinning_drops q || interval_gate_drops q now) eqn:G.
  - rewrite (enqueue_dropped _ _ _ _ _ G). fq_simpl.
    split; [repeat split|]. left. repeat split.
  - rewrite (enqueue_accepted _ _ _ _ _ G). cbv zeta.
    destruct (maxSize q <=? length (queue q))%nat eqn:L.
    + apply Nat.leb_le in L.
      destruct (queue q) as [|oldest rest] eqn:Hq; fq_simpl.
      * split; [repeat split|]. right. right. right.
        cbn in L. split; [reflexivity|]. split; [lia|]. repeat split; exact Hq.
      * split; [repeat split|]. right. right. left.
        repeat split; [exact L|]. exists oldest, rest. split; reflexivity.
    + fq_simpl. split; [repeat split|]. right. left.
      apply Nat.leb_gt in L. repeat split; assumption.
Qed.

(** ** What [dequeue] and [autoAdjustFPS] do *)

Lemma dequeue_begin_guard q :
  processing q = true \/ queue q = [] -> dequeue_begin q = (q, None).
Proof.
  unfold dequeue_begin. intros [H | H]; rewrite H; [reflexivity|].
  cbn. rewrite orb_true_r. reflexivity.
Qed.

Lemma dequeue_begin_takes q frame rest :
  processing q = false -> queue q = frame :: rest ->
  dequeue_begin q = (set_queue rest (set_processing true q), Some frame).
Proof.
  unfold dequeue_begin. intros Hp Hq. rewrite Hp, Hq. reflexivity.
Qed.

Lemma dequeue_begin_cases q :
  (dequeue_begin q = (q, None) /\ (processing q = true \/ queue q = []))
  \/ (exists frame rest, processing q = false /\ queue q = frame :: rest
        /\ dequeue_begin q
           = (set_queue rest (set_processing true q), Some frame)).
Proof.
  destruct (processing q) eqn:Hp.
  - left. split; [apply dequeue_begin_guard|]; auto.
  - destruct (queue q) as [|frame rest] eqn:Hq.
    + left. split; [apply dequeue_begin_guard|]; auto.
    + right. exists frame, rest. repeat split.
      apply dequeue_begin_takes; assumption.
Qed.

Lemma dequeue_end_frame q frame processStart o :
  let q' := fst (dequeue_end q frame processStart o) in
  maxSize q' = maxSize q /\ queue q' = queue q
  /\ processing q' = false /\ droppedFrames q' = droppedFrames q
  /\ totalFrames q' = totalFrames q /\ targetFPS q' = targetFPS q
  /\ frameInterval q' = frameInterval q
  /\ maxProcessingTimeHistory q' = maxProcessingTimeHistory q
  /\ processedFrames q'
     = match o with
       | Resolves _ _ => S (processedFrames q)
       | Throws => processedFrames q
       end.
Proof.
  destruct o as [result processEnd|]; unfold dequeue_end;
    [unfold updateProcessingTime|]; fq_simpl; repeat split.
Qed.

Lemma autoAdjustFPS_frame q :
  let q' := autoAdjustFPS q in
  maxSize q' = maxSize q /\ queue q' = queue q
  /\ processing q' = processing q /\ droppedFrames q' = droppedFrames q
  /\ processedFrames q' = processedFrames q
  /\ totalFrames q' = totalFrames q
  /\ avgProcessingTime q' = avgProcessingTime q
  /\ processingTimes q' = processingTimes q
  /\ maxProcessingTimeHistory q' = maxProcessingTimeHistory q.
Proof.
  unfold autoAdjustFPS.
  destruct (length (processingTimes q) <? 5)%nat; [repeat split|].
  destruct (num_ltb (num_times (frameInterval q) 1.5)
              (Finite (avgProcessingTime q)));
    [fq_simpl; repeat split|].
  destruct (num_ltb (Finite (avgProcessingTime q))
              (num_times (frameInterval q) 0.5)
            && (length (queue q) <? 2)%nat);
    fq_simpl; repeat split.
Qed.

(** ** Invariants of runs *)

Lemma run_invariant (P : World -> Prop) :
  (forall w op w', P w -> step w op = Some w' -> P w') ->
  forall ops w w', P w -> run w ops = Some w' -> P w'.
Proof.
  intros Hstep. induction ops as [|op ops IH]; intros w w' Hw Hrun; cbn in Hrun.
  - congruence.
  - destruct (step w op) as [w1|] eqn:E; [|discriminate].
    eapply IH; [|exact Hrun]. eapply Hstep; eassumption.
Qed.

Lemma bounded_step m w op w' :
  bounded m w -> step w op = Some w' -> bounded m w'.
Proof.
  intros [Hmax Hlen] Hstep.
  destruct op as [fid fd ct now|ps|i o|]; cbn in Hstep.
  - inversion Hstep; subst w'; clear Hstep. unfold bounded. fq_simpl.
    destruct (enqueue_cases (fq w) fid fd ct now) as [(Em & _) Hc].
    cbv zeta in Em, Hc. rewrite Em. split; [assumption|].
    destruct Hc as [(_ & Eq & _) | [(_ & Hlt & Eq & _)
                   | [(_ & Hge & (oldest & rest & Hq & Eq) & _)
                   | (_ & _ & _ & Eq & _)]]];
      rewrite Eq.
    + assumption.
    + rewrite length_app. cbn. lia.
    + rewrite Hq in Hlen. rewrite length_app. cbn in *. lia.
    + cbn. lia.
  - destruct (dequeue_begin_cases (fq w)) as [[E _] | (f & rest & Hp & Hq & E)];
      rewrite E in Hstep; inversion Hstep; subst w'; clear Hstep;
      unfold bounded; fq_simpl; [tauto|].
    split; [assumption|]. rewrite Hq in Hlen. cbn in Hlen. lia.
  - destruct (inflight w !! i) as [[f ps]|]; [|discriminate].
    inversion Hstep; subst w'; clear Hstep. unfold bounded. fq_simpl.
    destruct (dequeue_end_frame (fq w) f ps o) as (E1 & E2 & _).
    cbv zeta in E1, E2. rewrite E1, E2. tauto.
  - inversion Hstep; subst w'; clear Hstep. unfold bounded. fq_simpl.
    destruct (autoAdjustFPS_frame (fq w)) as (E1 & E2 & _).
    cbv zeta in E1, E2. rewrite E1, E2. tauto.
Qed.

(** C1. On a FrameQueue constructed with [maxSize >= 1], after every
    sequence of enqueue and dequeue operations (with [autoAdjustFPS]
    calls interleaved as the processing loop makes them) the queue holds
    at most [maxSize] frames; and when [enqueue] finds the queue holding
    [maxSize] frames and the frame passes the thinning and interval
    gates, the frame evicted is the head of the queue: the queue becomes
    its former tail followed by the newly submitted frame, which is
    accepted. *)
Theorem C1_queue_bounded_evicts_oldest
    (m : nat) (fps : Q) (ops : list Op) (w : World)
    (Hm : (1 <= m)%nat) (Hrun : run (newWorld m fps) ops = Some w) :
  maxSize (fq w) = m
  /\ (length (queue (fq w)) <= maxSize (fq w))%nat
  /\ forall fid frameData captureTimestamp now,
       length (queue (fq w)) = maxSize (fq w) ->
       thinning_drops (fq w) || interval_gate_drops (fq w) now = false ->
       exists oldest rest,
         queue (fq w) = oldest :: rest
         /\ snd (enqueue (fq w) fid frameData captureTimestamp now)
            = Returned true
         /\ queue (fst (enqueue (fq w) fid frameData captureTimestamp now))
            = rest ++ [Frame.mk fid frameData captureTimestamp now]
         /\ length (queue (fst (enqueue (fq w) fid frameData
                                  captureTimestamp now)))
            = maxSize (fq w).
Proof.
  assert (Hb : bounded m w).
  { eapply (run_invariant (bounded m)); [|  |exact Hrun].
    - intros w1 op w2. apply bounded_step.
    - split; cbn; [reflexivity | lia]. }
  destruct Hb as [Hmax Hlen]. split; [exact Hmax|]. split; [lia|].
  intros fid frameData captureTimestamp now Hfull Hgates.
  destruct (queue (fq w)) as [|oldest rest] eqn:Hq.
  { cbn in Hfull. lia. }
  exists oldest, rest. split; [reflexivity|].
  rewrite (enqueue_accepted _ _ _ _ _ Hgates). cbv zeta.
  rewrite Hq. cbn [length] in *.
  assert (L : (maxSize (fq w) <=? S (length rest))%nat = true).
  { apply Nat.leb_le. lia. }
  rewrite L. fq_simpl. repeat split.
  rewrite length_app. cbn. lia.
Qed.

Lemma C1_queue_bounded_evicts_oldest_witness :
  let ops := [Enqueue "f1" "jpeg" 100 100; Enqueue "f2" "jpeg" 200 200] in
  exists w,
    run (newWorld 2 15) ops = Some w
    /\ (length (queue (fq w)) <= maxSize (fq w))%nat
    /\ queue (fst (enqueue (fq w) "f3" "jpeg" 300 300))
       = [Frame.mk "f2" "jpeg" 200 200; Frame.mk "f3" "jpeg" 300 300].
Proof.
  intros ops. eexists. split; [vm_compute; reflexivity|].
  match goal with
  | |- context [fq ?w0] =>
      destruct (C1_queue_bounded_evicts_oldest 2 15 ops w0) as (_ & Hlen & Hev);
        [lia | vm_compute; reflexivity |]
  end.
  split; [exact Hlen|].
  destruct (Hev "f3" "jpeg" 300%Q 300%Q) as (oldest & rest & Hq & _ & Hq' & _);
    [reflexivity | vm_compute; reflexivity |].
  rewrite Hq'. cbn in Hq. inversion Hq. reflexivity.
Defined.

Lemma accounted_step w op w' :
  accounted w -> step w op = Some w' -> accounted w'.
Proof.
  unfold accounted. intros Hacc Hstep.
  destruct op as [fid fd ct now|ps|i o|]; cbn in Hstep.
  - inversion Hstep; subst w'; clear Hstep. fq_simpl.
    destruct (enqueue_cases (fq w) fid fd ct now)
      as [(_ & _ & Ep & Et & _) Hc].
    cbv zeta in Ep, Et, Hc. rewrite Ep, Et.
    destruct Hc as [(_ & Eq & Ed) | [(_ & Hlt & Eq & Ed)
                   | [(_ & Hge & (oldest & rest & Hq & Eq) & Ed)
                   | (_ & _ & Hq & Eq & Ed)]]];
      rewrite Eq, Ed; rewrite ?Hq in Hacc; rewrite ?length_app;
      cbn [length] in *; lia.
  - destruct (dequeue_begin_cases (fq w)) as [[E _] | (f & rest & Hp & Hq & E)];
      rewrite E in Hstep; inversion Hstep; subst w'; clear Hstep;
      fq_simpl; [assumption|].
    rewrite Hq in Hacc. rewrite length_app. cbn [length] in *. lia.
  - destruct (inflight w !! i) as [[f ps]|] eqn:Hi; [|discriminate].
    inversion Hstep; subst w'; clear Hstep. fq_simpl.
    destruct (dequeue_end_frame (fq w) f ps o)
      as (_ & Eq & _ & Ed & Et & _ & _ & _ & Ep).
    cbv zeta in Eq, Ed, Et, Ep. rewrite Eq, Ed, Et, Ep.
    assert (Hl : S (length (delete i (inflight w))) = length (inflight w)).
    { rewrite length_delete by eauto. apply lookup_lt_Some in Hi. lia. }
    destruct o; lia.
  - inversion Hstep; subst w'; clear Hstep. fq_simpl.
    destruct (autoAdjustFPS_frame (fq w)) as (_ & Eq & _ & Ed & Ep & Et & _).
    cbv zeta in Eq, Ed, Ep, Et. rewrite Eq, Ed, Ep, Et. assumption.
Qed.

Lemma run_no_throw_failed ops : forall w w',
  run w ops = Some w' -> no_throw ops = true -> failed w' = failed w.
Proof.
  induction ops as [|op ops IH]; intros w w' Hrun Hno; cbn in Hrun.
  - congruence.
  - cbn in Hno. apply andb_true_iff in Hno as [Hop Hno].
    destruct (step w op) as [w1|] eqn:E; [|discriminate].
    rewrite (IH _ _ Hrun Hno).
    destruct op as [fid fd ct now|ps|i o|]; cbn in E.
    + inversion E; reflexivity.
    + destruct (dequeue_begin (fq w)) as [q [f|]]; inversion E; reflexivity.
    + destruct (inflight w !! i) as [[f ps]|]; [|discriminate].
      inversion E. destruct o; [reflexivity | discriminate].
    + inversion E; reflexivity.
Qed.

(** C2, as the code has it. After every sequence of enqueue and dequeue
    operations (no [clear]) in which no processing function throws,
    [processedFrames + droppedFrames], plus the frames still queued and
    the frame handed to a processing function that has not returned yet,
    equals [totalFrames]; [droppedFrames] counts the drops of the
    interval gate, of adaptive thinning and of overflow eviction. *)
Theorem C2_accounting_with_queued_frames
    (m : nat) (fps : Q) (ops : list Op) (w : World)
    (Hrun : run (newWorld m fps) ops = Some w)
    (Hno : no_throw ops = true) :
  (processedFrames (fq w) + droppedFrames (fq w)
   + length (queue (fq w)) + length (inflight w))%nat
  = totalFrames (fq w).
Proof.
  assert (Ha : accounted w).
  { eapply (run_invariant accounted); [| |exact Hrun].
    - intros w1 op w2. apply accounted_step.
    - reflexivity. }
  unfold accounted in Ha.
  rewrite (run_no_throw_failed _ _ _ Hrun Hno) in Ha. cbn in Ha. lia.
Qed.

Lemma C2_accounting_with_queued_frames_witness :
  let ops := [Enqueue "f1" "jpeg" 100 100; Enqueue "f2" "jpeg" 110 110;
              DequeueCall 120; DequeueResume 0 (Resolves None 150)] in
  exists w,
    run (newWorld 5 15) ops = Some w
    /\ (processedFrames (fq w) + droppedFrames (fq w)
        + length (queue (fq w)) + length (inflight w))%nat
       = totalFrames (fq w).
Proof.
  intros ops. eexists. split; [vm_compute; reflexivity|].
  apply (C2_accounting_with_queued_frames 5 15 ops);
    [vm_compute; reflexivity | reflexivity].
Defined.

(** C2, as stated, fails: one accepted frame that is still queued is
    neither processed nor dropped. *)
Lemma C2_counterexample :
  let ops := [Enqueue "f1" "jpeg" 100 100] in
  exists w,
    run (newWorld 5 15) ops = Some w
    /\ processedFrames (fq w) = 0%nat
    /\ droppedFrames (fq w) = 0%nat
    /\ totalFrames (fq w) = 1%nat
    /\ (processedFrames (fq w) + droppedFrames (fq w))%nat
       <> totalFrames (fq w).
Proof.
  intros ops. eexists. split; [vm_compute; reflexivity|].
  cbn. repeat split. discriminate.
Qed.

(** Why the statement above leaves throwing processing functions out:
    a frame whose processing function throws is removed from the queue
    and counted neither as processed nor as dropped. *)
Example frame_of_throwing_call_is_uncounted :
  let ops := [Enqueue "f1" "jpeg" 100 100; DequeueCall 120;
              DequeueResume 0 Throws] in
  exists w,
    run (newWorld 5 15) ops = Some w
    /\ queue (fq w) = [] /\ inflight w = []
    /\ processedFrames (fq w) = 0%nat /\ droppedFrames (fq w) = 0%nat
    /\ totalFrames (fq w) = 1%nat.
Proof.
  intros ops. eexists. split; [vm_compute; reflexivity|].
  repeat split.
Qed.

(** C3. Whenever [enqueue] is called less than 0.8 target frame
    intervals after the last processed frame, it returns [false], the
    queue is left as it was and [droppedFrames] grows by exactly one
    (whether or not the thinning drop fired first). *)
Theorem C3_interval_gate_rejects
    (q : FrameQueue) (fid frameData : string) (captureTimestamp now : Q)
    (Hearly : num_lt (Finite (now - lastProcessTime q))
                (num_times (frameInterval q) 0.8)) :
  snd (enqueue q fid frameData captureTimestamp now) = Returned false
  /\ queue (fst (enqueue q fid frameData captureTimestamp now)) = queue q
  /\ droppedFrames (fst (enqueue q fid frameData captureTimestamp now))
     = S (droppedFrames q)
  /\ (thinning_drops q = false ->
      enqueue q fid frameData captureTimestamp now
      = (updateMetrics (incr_droppedFrames (incr_totalFrames q)),
         Returned false)).
Proof.
  assert (G : thinning_drops q || interval_gate_drops q now = true).
  { apply orb_true_iff. right. exact Hearly. }
  rewrite (enqueue_dropped _ _ _ _ _ G). fq_simpl. repeat split.
Qed.

Lemma C3_interval_gate_rejects_witness :
  snd (enqueue (newFrameQueue 5 15) "f1" "jpeg" 10 10) = Returned false
  /\ queue (fst (enqueue (newFrameQueue 5 15) "f1" "jpeg" 10 10)) = []
  /\ droppedFrames (fst (enqueue (newFrameQueue 5 15) "f1" "jpeg" 10 10))
     = 1%nat.
Proof.
  destruct (C3_interval_gate_rejects (newFrameQueue 5 15) "f1" "jpeg" 10 10)
    as (H1 & H2 & H3 & _).
  - vm_compute. reflexivity.
  - exact (conj H1 (conj H2 H3)).
Defined.

(** ** The rolling window of processing durations *)

Lemma shift_drop {A} (n : nat) (l : list A) : shift (drop n l) = drop (S n) l.
Proof.
  revert l. induction n as [|n IH]; intros [|x l]; try reflexivity.
  change (shift (drop n l) = drop (S n) l). apply IH.
Qed.

Lemma window_push (s : list Q) (t : Q) :
  (let times := lastn 10 s ++ [t] in
   if (10 <? length times)%nat then shift times else times)
  = lastn 10 (s ++ [t]).
Proof.
  cbv zeta. unfold lastn. rewrite !length_app, length_drop. cbn [length].
  destruct (10 <? length s - (length s - 10) + 1)%nat eqn:E.
  - apply Nat.ltb_lt in E.
    assert (Hs : (10 <= length s)%nat) by lia.
    replace (length s + 1 - 10)%nat with (S (length s - 10)) by lia.
    rewrite drop_app_le by lia.
    rewrite <- shift_drop.
    destruct (drop (length s - 10) s) as [|x l] eqn:D.
    + apply (f_equal length) in D. rewrite length_drop in D. cbn in D. lia.
    + reflexivity.
  - apply Nat.ltb_ge in E.
    replace (length s - 10)%nat with 0%nat by lia.
    replace (length s + 1 - 10)%nat with 0%nat by lia.
    rewrite !drop_0. reflexivity.
Qed.

Lemma window_ok_step w op w' :
  window_ok w -> step w op = Some w' -> window_ok w'.
Proof.
  intros (Hmax & Hpt & Havg) Hstep.
  destruct op as [fid fd ct now|ps|i o|]; cbn in Hstep.
  - inversion Hstep; subst w'; clear Hstep. unfold window_ok. fq_simpl.
    destruct (enqueue_cases (fq w) fid fd ct now)
      as [(_ & _ & _ & _ & _ & _ & Ea & Ept & Em) _].
    cbv zeta in Ea, Ept, Em. rewrite Ea, Ept, Em. auto.
  - destruct (dequeue_begin_cases (fq w)) as [[E _] | (f & rest & Hp & Hq & E)];
      rewrite E in Hstep; inversion Hstep; subst w'; clear Hstep;
      unfold window_ok; fq_simpl; auto.
  - destruct (inflight w !! i) as [[f ps]|] eqn:Hi; [|discriminate].
    inversion Hstep; subst w'; clear Hstep. unfold window_ok.
    destruct o as [result processEnd|]; unfold dequeue_end; fq_simpl.
    + unfold updateProcessingTime. fq_simpl. rewrite Hmax, Hpt.
      pose proof (window_push (samples w) (processEnd - ps)%Q) as Hw.
      cbv zeta in Hw. rewrite Hw. repeat split.
    + auto.
  - inversion Hstep; subst w'; clear Hstep. unfold window_ok. fq_simpl.
    destruct (autoAdjustFPS_frame (fq w))
      as (_ & _ & _ & _ & _ & _ & Ea & Ept & Em).
    cbv zeta in Ea, Ept, Em. rewrite Ea, Ept, Em. auto.
Qed.

(** C4. The queue keeps the last 10 processing durations and their
    average; whenever that average exceeds 1.5 target frame intervals,
    [enqueue] drops every frame whose ordinal is even (returns [false],
    leaves the queue, counts the drop), while a frame of odd ordinal is
    rejected only by the interval gate, and the condition is still in
    force for the next frame, whose ordinal has the other parity. With
    an average of 200 ms at 15 frames per second thinning is active. *)
Theorem C4_rolling_average_and_thinning
    (m : nat) (fps : Q) (ops : list Op) (w : World)
    (Hrun : run (newWorld m fps) ops = Some w) :
  processingTimes (fq w) = lastn 10 (samples w)
  /\ (samples w <> [] ->
      avgProcessingTime (fq w)
      = (Qsum (lastn 10 (samples w))
         / Qnat (length (lastn 10 (samples w))))%Q)
  /\ (forall fid frameData captureTimestamp now,
        num_lt (num_times (frameInterval (fq w)) 1.5)
          (Finite (avgProcessingTime (fq w))) ->
        let r := enqueue (fq w) fid frameData captureTimestamp now in
        totalFrames (fst r) = S (totalFrames (fq w))
        /\ (Nat.even (totalFrames (fst r)) = true ->
            snd r = Returned false /\ queue (fst r) = queue (fq w)
            /\ droppedFrames (fst r) = S (droppedFrames (fq w)))
        /\ (Nat.even (totalFrames (fst r)) = false ->
            (snd r = Returned false <-> interval_gate_drops (fq w) now = true))
        /\ num_lt (num_times (frameInterval (fst r)) 1.5)
             (Finite (avgProcessingTime (fst r))))
  /\ (forall q : FrameQueue,
        (avgProcessingTime q == 200)%Q ->
        frameInterval q = num_div 1000 15 ->
        thinning_active q = true).
Proof.
  assert (Hw : window_ok w).
  { eapply (run_invariant window_ok); [| |exact Hrun].
    - intros w1 op w2. apply window_ok_step.
    - repeat split; try (intros H; cbn in H; congruence). }
  destruct Hw as (_ & Hpt & Havg).
  split; [exact Hpt|]. split; [exact Havg|]. split.
  - intros fid frameData captureTimestamp now Hslow r.
    destruct (enqueue_cases (fq w) fid frameData captureTimestamp now)
      as [(_ & _ & _ & Et & _ & Ei & Ea & _) _].
    fold r in Et, Ei, Ea. rewrite Et, Ei, Ea.
    split; [reflexivity|].
    assert (Hact : thinning_active (fq w) = true)
      by exact Hslow.
    split; [|split; [|exact Hslow]].
    + intros Heven. subst r.
      rewrite enqueue_dropped.
      * fq_simpl. repeat split.
      * unfold thinning_drops. rewrite Hact, Heven. reflexivity.
    + intros Hodd. subst r.
      assert (Hth : thinning_drops (fq w) = false)
        by (unfold thinning_drops; rewrite Hact, Hodd; reflexivity).
      destruct (interval_gate_drops (fq w) now) eqn:G.
      * rewrite enqueue_dropped by (rewrite Hth, G; reflexivity).
        split; reflexivity.
      * rewrite enqueue_accepted by (rewrite Hth, G; reflexivity).
        cbv zeta. split; [|discriminate].
        destruct (maxSize (fq w) <=? length (queue (fq w)))%nat;
          [destruct (queue (fq w))|]; discriminate.
  - intros q Ha Hi. unfold thinning_active. rewrite Hi.
    change (num_div 1000 15) with (Finite (1000 / 15)).
    cbn [num_times num_ltb]. apply Qltb_true. rewrite Ha. reflexivity.
Qed.

Lemma C4_rolling_average_and_thinning_witness :
  exists w,
    run (newWorld 5 15) scenario_200ms = Some w
    /\ processingTimes (fq w) = [200; 200; 200; 200; 200]%Q
    /\ (avgProcessingTime (fq w) == 200)%Q
    /\ thinning_active (fq w) = true
    /\ totalFrames (fq w) = 9%nat
    /\ snd (enqueue (fq w) "f10" "jpeg" 6000 6000) = Returned false
    /\ droppedFrames (fst (enqueue (fq w) "f10" "jpeg" 6000 6000))
       = S (droppedFrames (fq w))
    /\ snd (enqueue (fst (enqueue (fq w) "f10" "jpeg" 6000 6000))
              "f11" "jpeg" 6100 6100) = Returned true.
Proof.
  eexists. split; [vm_compute; reflexivity|].
  match goal with
  | |- context [fq ?w0] =>
      destruct (C4_rolling_average_and_thinning 5 15 scenario_200ms w0)
        as (Hpt & _ & Hthin & Hscenario); [vm_compute; reflexivity|]
  end.
  split; [vm_compute; reflexivity|].
  split; [vm_compute; reflexivity|].
  split; [apply Hscenario; vm_compute; reflexivity|].
  split; [reflexivity|].
  destruct (Hthin "f10" "jpeg" 6000%Q 6000%Q) as (_ & Heven & _).
  { vm_compute. reflexivity. }
  destruct Heven as (H1 & _ & H3); [reflexivity|].
  split; [exact H1|]. split; [exact H3|].
  vm_compute. reflexivity.
Defined.

(** ** Automatic rate control *)

Lemma autoAdjustFPS_rate q :
  (5 <= targetFPS q)%Q -> (targetFPS q <= 30)%Q ->
  frameInterval q = num_div 1000 (targetFPS q) ->
  (5 <= targetFPS (autoAdjustFPS q))%Q
  /\ (targetFPS (autoAdjustFPS q) <= 30)%Q
  /\ frameInterval (autoAdjustFPS q)
     = num_div 1000 (targetFPS (autoAdjustFPS q)).
Proof.
  intros Hlo Hhi Hint. unfold autoAdjustFPS.
  destruct (length (processingTimes q) <? 5)%nat; [auto|].
  destruct (num_ltb (num_times (frameInterval q) 1.5)
              (Finite (avgProcessingTime q))).
  { fq_simpl. split; [apply Q.le_max_l|]. split; [|reflexivity].
    apply Q.max_lub; lra. }
  destruct (num_ltb (Finite (avgProcessingTime q))
              (num_times (frameInterval q) 0.5)
            && (length (queue q) <? 2)%nat); [|auto].
  fq_simpl. split; [|split; [apply Q.le_min_l | reflexivity]].
  apply Q.min_glb; lra.
Qed.

Lemma rate_ok_step w op w' :
  rate_ok w -> step w op = Some w' -> rate_ok w'.
Proof.
  intros (Hlo & Hhi & Hint) Hstep.
  destruct op as [fid fd ct now|ps|i o|]; cbn in Hstep.
  - inversion Hstep; subst w'; clear Hstep. unfold rate_ok. fq_simpl.
    destruct (enqueue_cases (fq w) fid fd ct now)
      as [(_ & _ & _ & _ & Et & Ei & _) _].
    cbv zeta in Et, Ei. rewrite Et, Ei. auto.
  - destruct (dequeue_begin_cases (fq w)) as [[E _] | (f & rest & Hp & Hq & E)];
      rewrite E in Hstep; inversion Hstep; subst w'; clear Hstep;
      unfold rate_ok; fq_simpl; auto.
  - destruct (inflight w !! i) as [[f ps]|] eqn:Hi; [|discriminate].
    inversion Hstep; subst w'; clear Hstep. unfold rate_ok. fq_simpl.
    destruct (dequeue_end_frame (fq w) f ps o)
      as (_ & _ & _ & _ & _ & Et & Ei & _).
    cbv zeta in Et, Ei. rewrite Et, Ei. auto.
  - inversion Hstep; subst w'; clear Hstep. unfold rate_ok. fq_simpl.
    apply autoAdjustFPS_rate; assumption.
Qed.

Lemma interval_positive (t : Q) : (5 <= t)%Q -> (0 < 1000 / t)%Q.
Proof.
  intros Ht. apply Qlt_shift_div_l; lra.
Qed.

(** C5. Starting from a target rate within [5, 30], whatever the queue
    goes through (any number of [autoAdjustFPS] calls among the enqueue
    and dequeue operations), the target rate stays within [5, 30]; and
    with at least 5 recorded durations [autoAdjustFPS] lowers the target
    rate by 1, not below 5, when the average duration exceeds 1.5 frame
    intervals, and raises it by 1, not above 30, when the average is
    below 0.5 frame intervals and fewer than 2 frames are queued. *)
Theorem C5_autoAdjustFPS_bounded
    (m : nat) (fps : Q) (ops : list Op) (w : World)
    (Hlo : (5 <= fps)%Q) (Hhi : (fps <= 30)%Q)
    (Hrun : run (newWorld m fps) ops = Some w) :
  ((5 <= targetFPS (fq w))%Q /\ (targetFPS (fq w) <= 30)%Q)
  /\ ((5 <= targetFPS (autoAdjustFPS (fq w)))%Q
      /\ (targetFPS (autoAdjustFPS (fq w)) <= 30)%Q)
  /\ ((5 <= length (processingTimes (fq w)))%nat ->
      num_lt (num_times (frameInterval (fq w)) 1.5)
        (Finite (avgProcessingTime (fq w))) ->
      targetFPS (autoAdjustFPS (fq w)) = Qmax 5 (targetFPS (fq w) - 1)
      /\ ((6 <= targetFPS (fq w))%Q ->
          (targetFPS (autoAdjustFPS (fq w)) == targetFPS (fq w) - 1)%Q))
  /\ ((5 <= length (processingTimes (fq w)))%nat ->
      num_lt (Finite (avgProcessingTime (fq w)))
        (num_times (frameInterval (fq w)) 0.5) ->
      (length (queue (fq w)) < 2)%nat ->
      targetFPS (autoAdjustFPS (fq w)) = Qmin 30 (targetFPS (fq w) + 1)
      /\ ((targetFPS (fq w) <= 29)%Q ->
          (targetFPS (autoAdjustFPS (fq w)) == targetFPS (fq w) + 1)%Q)).
Proof.
  assert (Hr : rate_ok w).
  { eapply (run_invariant rate_ok); [| |exact Hrun].
    - intros w1 op w2. apply rate_ok_step.
    - repeat split; assumption. }
  destruct Hr as (Hlo' & Hhi' & Hint).
  split; [auto|]. split.
  { destruct (autoAdjustFPS_rate (fq w) Hlo' Hhi' Hint) as (? & ? & _). auto. }
  split.
  - intros Hlen Hslow. unfold autoAdjustFPS.
    assert (L : (length (processingTimes (fq w)) <? 5)%nat = false)
      by (apply Nat.ltb_ge; exact Hlen).
    rewrite L. unfold num_lt in Hslow. rewrite Hslow. fq_simpl.
    split; [reflexivity|]. intros H6. apply Q.max_r. lra.
  - intros Hlen Hfast Hq. unfold autoAdjustFPS.
    assert (L : (length (processingTimes (fq w)) <? 5)%nat = false)
      by (apply Nat.ltb_ge; exact Hlen).
    rewrite L.
    assert (Hfin : frameInterval (fq w)
                   = Finite (1000 / targetFPS (fq w)))
      by (rewrite Hint; apply num_div_finite; lra).
    pose proof (interval_positive _ Hlo') as Hpos.
    assert (Hns : num_ltb (num_times (frameInterval (fq w)) 1.5)
                    (Finite (avgProcessingTime (fq w))) = false).
    { rewrite Hfin in *. cbn [num_times num_ltb].
      apply num_lt_finite in Hfast. apply Qltb_false. lra. }
    rewrite Hns. unfold num_lt in Hfast. rewrite Hfast.
    assert (L2 : (length (queue (fq w)) <? 2)%nat = true)
      by (apply Nat.ltb_lt; exact Hq).
    rewrite L2. fq_simpl.
    split; [reflexivity|]. intros H29. apply Q.min_r. lra.
Qed.

Lemma C5_autoAdjustFPS_bounded_witness :
  exists w,
    run (newWorld 5 15) (scenario_200ms ++ [AutoAdjustFPS]) = Some w
    /\ (targetFPS (fq w) == 14)%Q
    /\ (5 <= targetFPS (autoAdjustFPS (fq w)))%Q
    /\ (targetFPS (autoAdjustFPS (fq w)) == targetFPS (fq w) - 1)%Q.
Proof.
  eexists. split; [vm_compute; reflexivity|].
  match goal with
  | |- context [fq ?w0] =>
      destruct (C5_autoAdjustFPS_bounded 5 15
                  (scenario_200ms ++ [AutoAdjustFPS]) w0)
        as (_ & (Hlo & _) & Hdec & _);
        [vm_compute; discriminate | vm_compute; discriminate
        | vm_compute; reflexivity |]
  end.
  split; [vm_compute; reflexivity|]. split; [exact Hlo|].
  destruct Hdec as (_ & Hone).
  - cbn. lia.
  - vm_compute. reflexivity.
  - apply Hone. vm_compute. discriminate.
Defined.

(** ** The single consumer *)




(** C10, as the code has it. A [dequeue] that passed its entry guard
    always releases the lock: when its continuation has run, whether the
    processing function resolved to a result, resolved to [null] or
    threw, and whatever happened to the queue object meanwhile, the
    processing flag is [false], so that the next [dequeue] takes the
    head of a non-empty queue; and when the function threw, [dequeue]
    returns [null]. A [dequeue] that returns [null] at its entry guard
    leaves the flag as it found it. *)
Theorem C10_dequeue_releases_its_lock
    (q : FrameQueue) (frame : Frame.t) (processStart : Q) (o : outcome) :
  processing (fst (dequeue_end q frame processStart o)) = false
  /\ snd (dequeue_end q frame processStart Throws) = None
  /\ (forall next rest,
        queue q = next :: rest ->
        snd (dequeue_begin (fst (dequeue_end q frame processStart o)))
        = Some next)
  /\ (processing q = false ->
      processing (fst (dequeue q processStart o)) = false)
  /\ (processing q = true \/ queue q = [] ->
      dequeue q processStart o = (q, None)).
Proof.
  destruct (dequeue_end_frame q frame processStart o) as (_ & Eq & Ep & _).
  cbv zeta in Eq, Ep.
  split; [exact Ep|]. split; [reflexivity|]. split; [|split].
  - intros next rest Hq.
    rewrite (dequeue_begin_takes _ next rest Ep) by (rewrite Eq; exact Hq).
    reflexivity.
  - intros Hp. unfold dequeue.
    destruct (dequeue_begin_cases q) as [[E _] | (f & rest & _ & _ & E)];
      rewrite E; [exact Hp|].
    destruct (dequeue_end_frame (set_queue rest (set_processing true q))
                f processStart o) as (_ & _ & Ep' & _).
    exact Ep'.
  - intros Hg. unfold dequeue. rewrite (dequeue_begin_guard _ Hg). reflexivity.
Qed.

Lemma C10_dequeue_releases_its_lock_witness :
  let ops := [Enqueue "f1" "jpeg" 100 100; Enqueue "f2" "jpeg" 200 200;
              DequeueCall 210] in
  exists w,
    run (newWorld 5 15) ops = Some w
    /\ processing (fq w) = true
    /\ processing
         (fst (dequeue_end (fq w) (Frame.mk "f1" "jpeg" 100 100) 210 Throws))
       = false
    /\ snd (dequeue_begin
              (fst (dequeue_end (fq w) (Frame.mk "f1" "jpeg" 100 100) 210
                      Throws)))
       = Some (Frame.mk "f2" "jpeg" 200 200).
Proof.
  intros ops. eexists. split; [vm_compute; reflexivity|].
  split; [reflexivity|].
  match goal with
  | |- context [fq ?w0] =>
      destruct (C10_dequeue_releases_its_lock (fq w0)
                  (Frame.mk "f1" "jpeg" 100 100) 210 Throws)
        as (Hp & _ & Hnext & _)
  end.
  split; [exact Hp|].
  apply (Hnext _ []). reflexivity.
Defined.

(** C10, as stated, fails: a [dequeue] called while another one is
    suspended completes (it returns [null] at once, for any processing
    function) and the flag is still set afterwards. *)
Lemma C10_counterexample :
  let ops := [Enqueue "f1" "jpeg" 100 100; Enqueue "f2" "jpeg" 200 200;
              DequeueCall 210] in
  exists w,
    run (newWorld 5 15) ops = Some w
    /\ (forall processStart o,
          snd (dequeue (fq w) processStart o) = None
          /\ processing (fst (dequeue (fq w) processStart o)) = true)
    /\ ~ (forall processStart o,
            processing (fst (dequeue (fq w) processStart o)) = false).
Proof.
  intros ops. eexists. split; [vm_compute; reflexivity|].
  split.
  - intros processStart o. split; reflexivity.
  - intros H. specialize (H 220%Q Throws). discriminate H.
Qed.

(** ** ICE candidates that arrive before the remote description *)

Lemma handleIceCandidate_buffers b c n pc :
  peerConnectionRef n = Some pc -> remoteDescription pc = None ->
  handleIceCandidate b c n
  = mkNegotiation (Some pc) (iceCandidateQueueRef n ++ [c]) (errors n)
      (sentMessages n).
Proof.
  intros Hpc Hrd. unfold handleIceCandidate. rewrite Hpc, Hrd. reflexivity.
Qed.

Lemma receiveCandidates_buffers b cs : forall n pc,
  peerConnectionRef n = Some pc -> remoteDescription pc = None ->
  receiveCandidates b cs n
  = mkNegotiation (Some pc) (iceCandidateQueueRef n ++ cs) (errors n)
      (sentMessages n).
Proof.
  unfold receiveCandidates.
  induction cs as [|c cs IH]; intros n pc Hpc Hrd; cbn [foldl].
  - rewrite app_nil_r. destruct n; cbn in *. congruence.
  - rewrite (handleIceCandidate_buffers b c n pc Hpc Hrd).
    rewrite (IH _ pc) by (cbn; trivial). cbn.
    rewrite <- app_assoc. reflexivity.
Qed.

Lemma drainIceCandidates_spec b cs : forall n pc,
  peerConnectionRef n = Some pc ->
  exists pc',
    peerConnectionRef (drainIceCandidates b cs n) = Some pc'
    /\ map fst (addIceCandidateCalls pc')
       = map fst (addIceCandidateCalls pc) ++ cs
    /\ remoteDescription pc' = remoteDescription pc
    /\ (cs <> [] -> iceCandidateQueueRef (drainIceCandidates b cs n) = []).
Proof.
  induction cs as [|c cs IH]; intros n pc Hpc; cbn [drainIceCandidates].
  - exists pc. rewrite app_nil_r. split; [assumption|].
    split; [reflexivity|]. split; [reflexivity|]. intros H. congruence.
  - unfold addIceCandidate. cbn [peerConnectionRef]. rewrite Hpc.
    destruct (addIceCandidate_ok b c);
      [ set (n1 := mkNegotiation _ _ _ _)
      | set (n1 := log_error _ _) ];
      (destruct (IH n1 _ eq_refl) as (pc' & E1 & E2 & E3 & E4);
       exists pc'; split; [exact E1|];
       split; [rewrite E2; cbn; rewrite map_app, <- app_assoc; reflexivity|];
       split; [exact E3|];
       intros _; destruct cs; [reflexivity | apply E4; congruence]).
Qed.

(** The offer path does replay: after a successfully handled offer every
    buffered candidate has been passed to [addIceCandidate], in arrival
    order, and the buffer is empty. *)
Lemma handleOffer_replays_buffer b sender_id data answer_sd n pc :
  peerConnectionRef n = Some pc ->
  setRemoteDescription_ok b data = true ->
  createAnswer_result b = Some answer_sd ->
  setLocalDescription_ok b answer_sd = true ->
  candidatesAdded (handleOffer b sender_id data n)
  = candidatesAdded n ++ iceCandidateQueueRef n
  /\ iceCandidateQueueRef (handleOffer b sender_id data n) = [].
Proof.
  intros Hpc Hsrd Hca Hsld. unfold handleOffer.
  rewrite Hpc, Hsrd, Hca, Hsld. unfold processQueuedIceCandidates.
  cbn [sendFrom set_peerConnection iceCandidateQueueRef peerConnectionRef
       errors sentMessages].
  match goal with
  | |- context [drainIceCandidates b ?cs ?n0] =>
      destruct (drainIceCandidates_spec b cs n0 _ eq_refl)
        as (pc' & E1 & E2 & _ & E4)
  end.
  unfold candidatesAdded. rewrite E1, Hpc, E2. cbn. split; [reflexivity|].
  destruct (iceCandidateQueueRef n) eqn:Hq; [cbn; exact Hq|].
  apply E4. congruence.
Qed.

(** C7, evaluated on the answer path. Candidates received while the
    connection has no remote description are buffered in arrival order;
    when an answer is then applied as remote description, none of them
    is passed to [addIceCandidate]: they all stay in the buffer. *)
Theorem C7_answer_leaves_candidates_buffered
    (b : Browser) (n : Negotiation) (pc : PeerConnection)
    (cs : list IceCandidate) (data : SessionDescription)
    (Hpc : peerConnectionRef n = Some pc)
    (Hrd : remoteDescription pc = None)
    (Hok : setRemoteDescription_ok b data = true) :
  let n1 := receiveCandidates b cs n in
  let n2 := handleAnswer b data n1 in
  iceCandidateQueueRef n1 = iceCandidateQueueRef n ++ cs
  /\ (exists pc2, peerConnectionRef n2 = Some pc2
                  /\ remoteDescription pc2 = Some data)
  /\ candidatesAdded n2 = candidatesAdded n
  /\ iceCandidateQueueRef n2 = iceCandidateQueueRef n ++ cs.
Proof.
  intros n1 n2. subst n2 n1.
  rewrite (receiveCandidates_buffers b cs n pc Hpc Hrd).
  unfold handleAnswer, candidatesAdded. cbn. rewrite Hok, Hpc. cbn.
  repeat split. eexists. split; reflexivity.
Qed.

Lemma C7_answer_leaves_candidates_buffered_witness :
  let n := mkNegotiation (Some setupPeerConnection) [] [] [] in
  let answer_sd := {| sdp := "v=0 answer"; sd_type := "answer" |} in
  let n2 := handleAnswer all_ok answer_sd
              (receiveCandidates all_ok three_candidates n) in
  candidatesAdded n2 = []
  /\ iceCandidateQueueRef n2 = three_candidates.
Proof.
  intros n answer_sd n2.
  destruct (C7_answer_leaves_candidates_buffered all_ok n setupPeerConnection
              three_candidates answer_sd)
    as (_ & _ & Hadded & Hqueue); try reflexivity.
  split; [exact Hadded | exact Hqueue].
Defined.

(** ** The pending offer *)

Lemma onReady_without_pending s e :
  pendingOffer s = None ->
  pendingOffer (onReady s e) = None
  /\ offerAttempts (wire (onReady s e)) = offerAttempts (wire s).
Proof.
  intros Hp. destruct e as [|postOk]; cbn [onReady].
  - unfold ws_onopen, wsWrapper_send. cbn. rewrite Hp. cbn.
    split; [reflexivity|]. unfold offerAttempts.
    rewrite List.filter_app. cbn. apply app_nil_r.
  - unfold initHTTPSignaling. cbn. rewrite Hp. cbn. split; reflexivity.
Qed.

Lemma ready_events_without_pending events : forall s,
  pendingOffer s = None ->
  pendingOffer (foldl onReady s events) = None
  /\ offerAttempts (wire (foldl onReady s events)) = offerAttempts (wire s).
Proof.
  induction events as [|e events IH]; intros s Hp; cbn [foldl].
  - split; [exact Hp | reflexivity].
  - destruct (onReady_without_pending s e Hp) as [Hp' Hw].
    destruct (IH _ Hp') as [Hp'' Hw'']. split; [exact Hp''|]. congruence.
Qed.

(** The WebSocket path does what the claim says: on [open] the pending
    offer is sent, once, and only then cleared. *)
Lemma ws_onopen_sends_pending_offer s o :
  pendingOffer s = Some o ->
  wire (ws_onopen s)
  = wire s ++ [mkSendAttempt WebSocketTransport get_room_users true;
               mkSendAttempt WebSocketTransport o true]
  /\ pendingOffer (ws_onopen s) = None.
Proof.
  intros Hp. unfold ws_onopen, wsWrapper_send. cbn. rewrite Hp. cbn.
  rewrite <- app_assoc. split; reflexivity.
Qed.

(** C8, evaluated on the HTTP path. When HTTP signaling connects while
    an offer is pending and the POST of that offer fails, the pending
    entry is cleared all the same; no later transport-ready event sends
    the offer again, so it is never delivered. *)
Theorem C8_http_ready_clears_undelivered_offer
    (s : Signaling) (o : SignalingMessage) (events : list ReadyEvent)
    (Hpend : pendingOffer s = Some o) (Hoffer : is_offer o = true) :
  let s1 := initHTTPSignaling true false s in
  let s2 := foldl onReady s1 events in
  wire s1 = wire s ++ [mkSendAttempt HTTPTransport o false]
  /\ pendingOffer s1 = None
  /\ pendingOffer s2 = None
  /\ offerAttempts (wire s2)
     = offerAttempts (wire s) ++ [mkSendAttempt HTTPTransport o false].
Proof.
  intros s1 s2.
  assert (H1 : wire s1 = wire s ++ [mkSendAttempt HTTPTransport o false]
               /\ pendingOffer s1 = None).
  { subst s1. unfold initHTTPSignaling, httpSignaling_send. cbn.
    rewrite Hpend. cbn. split; reflexivity. }
  destruct H1 as [Hw Hp]. split; [exact Hw|]. split; [exact Hp|].
  destruct (ready_events_without_pending events s1 Hp) as [Hp2 Hw2].
  split; [exact Hp2|]. fold s2 in Hw2. rewrite Hw2, Hw.
  unfold offerAttempts. rewrite List.filter_app. cbn. rewrite Hoffer.
  reflexivity.
Qed.

Lemma C8_http_ready_clears_undelivered_offer_witness :
  let s := startLocalCamera_sendOffer true an_offer
             (mkSignaling None false None []) in
  let s2 := foldl onReady (initHTTPSignaling true false s)
              [WsOpen; HttpConnected true] in
  pendingOffer s = Some an_offer
  /\ pendingOffer s2 = None
  /\ offerAttempts (wire s2) = [mkSendAttempt HTTPTransport an_offer false].
Proof.
  intros s s2. split; [reflexivity|].
  destruct (C8_http_ready_clears_undelivered_offer s an_offer
              [WsOpen; HttpConnected true])
    as (_ & _ & Hp & Hw); [reflexivity | reflexivity |].
  split; [exact Hp | exact Hw].
Defined.

(** ** Remote detection: the timeout and the late result *)

Lemma resolveCallsOn_fresh d :
  resolve_log_wf d -> resolveCallsOn (length (promises d)) d = [].
Proof.
  unfold resolve_log_wf, resolveCallsOn.
  induction (resolveCalls d) as [|c l IH]; intros Hwf; [reflexivity|].
  inversion Hwf as [|? ? Hc Hl]; subst. cbn.
  destruct (Nat.eqb_spec (fst c) (length (promises d))); [lia|].
  apply IH. exact Hl.
Qed.

Lemma onDetectionResult_unmatched now message d :
  lookupPending (frame_id message) d = None ->
  onDetectionResult now message d = handleDetectionResult now message d.
Proof. intros H. unfold onDetectionResult. rewrite H. reflexivity. Qed.




(** * Further properties of the code *)

(** ** FrameQueue: order of processing *)

Lemma step_keeps_order w op w' h s :
  step w op = Some w' ->
  h ++ queue (fq w) `sublist_of` s ->
  (h ++ handed_by w op) ++ queue (fq w') `sublist_of` s ++ submitted_by op.
Proof.
  intros Hstep Hsub. destruct op as [fid fd ct now|ps|i o|]; cbn in Hstep.
  - inversion Hstep; subst w'; clear Hstep. cbn [handed_by submitted_by].
    rewrite app_nil_r. fq_simpl.
    destruct (enqueue_cases (fq w) fid fd ct now) as [_ Hc].
    cbv zeta in Hc.
    destruct Hc as [(_ & Eq & _) | [(_ & _ & Eq & _)
                   | [(_ & _ & (oldest & rest & Hq & Eq) & _)
                   | (_ & _ & Hq & Eq & _)]]];
      rewrite Eq.
    + apply sublist_inserts_r. exact Hsub.
    + rewrite app_assoc. apply sublist_app; [exact Hsub | reflexivity].
    + rewrite app_assoc. apply sublist_app; [|reflexivity].
      rewrite Hq in Hsub. etrans; [|exact Hsub].
      apply sublist_app; [reflexivity|]. apply sublist_cons. reflexivity.
    + apply sublist_inserts_r. rewrite Hq in Hsub. exact Hsub.
  - cbn [handed_by submitted_by]. rewrite app_nil_r.
    destruct (dequeue_begin_cases (fq w)) as [[E _] | (f & rest & Hp & Hq & E)];
      rewrite E in Hstep |- *; inversion Hstep; subst w'; clear Hstep;
      fq_simpl.
    + rewrite app_nil_r. exact Hsub.
    + rewrite <- app_assoc. cbn. rewrite Hq in Hsub. exact Hsub.
  - destruct (inflight w !! i) as [[f ps]|]; [|discriminate].
    inversion Hstep; subst w'; clear Hstep. cbn [handed_by submitted_by].
    rewrite !app_nil_r. fq_simpl.
    destruct (dequeue_end_frame (fq w) f ps o) as (_ & Eq & _).
    cbv zeta in Eq. rewrite Eq. exact Hsub.
  - inversion Hstep; subst w'; clear Hstep. cbn [handed_by submitted_by].
    rewrite !app_nil_r. fq_simpl.
    destruct (autoAdjustFPS_frame (fq w)) as (_ & Eq & _).
    cbv zeta in Eq. rewrite Eq. exact Hsub.
Qed.

Lemma run_keeps_order ops : forall w w' h s,
  run w ops = Some w' ->
  h ++ queue (fq w) `sublist_of` s ->
  h ++ handed w ops ++ queue (fq w') `sublist_of` s ++ submitted ops.
Proof.
  induction ops as [|op ops IH]; intros w w' h s Hrun Hsub; cbn in Hrun.
  - inversion Hrun; subst w'. cbn. rewrite app_nil_r. exact Hsub.
  - destruct (step w op) as [w1|] eqn:E; [|discriminate].
    cbn [handed submitted flat_map]. rewrite E.
    pose proof (step_keeps_order w op w1 h s E Hsub) as H1.
    pose proof (IH w1 w' _ _ Hrun H1) as H2.
    rewrite <- !app_assoc in H2. rewrite <- app_assoc. exact H2.
Qed.

(** X1. Frames reach the processing function in the order they were
    submitted, each at most once: over every run, the frames handed to
    the processing function followed by the frames still queued are a
    subsequence of the submitted frames. *)
Theorem X1_frames_processed_in_submission_order
    (m : nat) (fps : Q) (ops : list Op) (w : World)
    (Hrun : run (newWorld m fps) ops = Some w) :
  handed (newWorld m fps) ops ++ queue (fq w) `sublist_of` submitted ops.
Proof.
  apply (run_keeps_order ops (newWorld m fps) w [] [] Hrun).
  cbn. constructor.
Qed.

Lemma X1_frames_processed_in_submission_order_witness :
  let ops := [Enqueue "f1" "jpeg" 100 100; Enqueue "f2" "jpeg" 110 110;
              Enqueue "f3" "jpeg" 200 200; DequeueCall 210;
              DequeueResume 0 (Resolves None 260); DequeueCall 270] in
  exists w,
    run (newWorld 1 15) ops = Some w
    /\ handed (newWorld 1 15) ops = [Frame.mk "f3" "jpeg" 200 200]
    /\ handed (newWorld 1 15) ops ++ queue (fq w) `sublist_of` submitted ops.
Proof.
  intros ops. eexists. split; [vm_compute; reflexivity|].
  split; [vm_compute; reflexivity|].
  apply (X1_frames_processed_in_submission_order 1 15 ops).
  vm_compute. reflexivity.
Defined.

(** ** FrameQueue: the metrics snapshot *)

Lemma metrics_current_step m w op w' :
  (1 <= m)%nat -> bounded m w ->
  metrics_current (fq w) -> step w op = Some w' -> metrics_current (fq w').
Proof.
  unfold metrics_current.
  intros Hm [Hmax Hlen] (Hd & Hp & Hr & Ha & Ht & Hf & Hq) Hstep.
  destruct op as [fid fd ct now|ps|i o|]; cbn in Hstep.
  - inversion Hstep; subst w'; clear Hstep. fq_simpl.
    destruct (thinning_drops (fq w) || interval_gate_drops (fq w) now) eqn:G.
    + rewrite (enqueue_dropped _ _ _ _ _ G). cbn. repeat split. lia.
    + rewrite (enqueue_accepted _ _ _ _ _ G). cbv zeta.
      destruct (maxSize (fq w) <=? length (queue (fq w)))%nat eqn:L.
      * apply Nat.leb_le in L.
        destruct (queue (fq w)) as [|oldest rest] eqn:Eq.
        { cbn in L. lia. }
        cbn. repeat split. lia.
      * cbn. repeat split. lia.
  - destruct (dequeue_begin_cases (fq w))
      as [[E _] | (f & rest & Hp' & Hq' & E)];
      rewrite E in Hstep; inversion Hstep; subst w'; clear Hstep; fq_simpl.
    + repeat split; assumption.
    + rewrite Hq' in Hq. cbn in Hq. repeat split; try assumption. lia.
  - destruct (inflight w !! i) as [[f ps]|]; [|discriminate].
    inversion Hstep; subst w'; clear Hstep. fq_simpl.
    destruct o as [result processEnd|]; unfold dequeue_end.
    + cbn. repeat split. lia.
    + fq_simpl. repeat split; assumption.
  - inversion Hstep; subst w'; clear Hstep. fq_simpl.
    unfold autoAdjustFPS.
    destruct (length (processingTimes (fq w)) <? 5)%nat;
      [repeat split; assumption|].
    destruct (num_ltb (num_times (frameInterval (fq w)) 1.5)
                (Finite (avgProcessingTime (fq w))));
      [cbn; repeat split; lia|].
    destruct (num_ltb (Finite (avgProcessingTime (fq w)))
                (num_times (frameInterval (fq w)) 0.5)
              && (length (queue (fq w)) <? 2)%nat);
      [cbn; repeat split; lia | repeat split; assumption].
Qed.

(** X2. On a queue constructed with [maxSize >= 1], after every run
    [getMetrics()] reports the current drop and processed counts, drop
    rate, average processing time, target rate and achieved rate; its
    [queueLength] is never below the real queue length (it lags by one
    after [dequeue] has taken a frame). *)
Theorem X2_metrics_snapshot_is_current
    (m : nat) (fps : Q) (ops : list Op) (w : World)
    (Hm : (1 <= m)%nat) (Hrun : run (newWorld m fps) ops = Some w) :
  Metrics.droppedFrames (getMetrics (fq w)) = droppedFrames (fq w)
  /\ Metrics.processedFrames (getMetrics (fq w)) = processedFrames (fq w)
  /\ Metrics.dropRate (getMetrics (fq w))
     = (if (0 <? totalFrames (fq w))%nat
        then (Qnat (droppedFrames (fq w)) / Qnat (totalFrames (fq w))
              * 100)%Q
        else 0%Q)
  /\ Metrics.avgProcessingTime (getMetrics (fq w))
     = avgProcessingTime (fq w)
  /\ Metrics.targetFPS (getMetrics (fq w)) = targetFPS (fq w)
  /\ Metrics.actualFPS (getMetrics (fq w)) = calculateActualFPS (fq w)
  /\ (length (queue (fq w)) <= Metrics.queueLength (getMetrics (fq w)))%nat.
Proof.
  assert (H : bounded m w /\ metrics_current (fq w)).
  { eapply (run_invariant (fun w => bounded m w /\ metrics_current (fq w)));
      [| |exact Hrun].
    - intros w1 op w2 [Hb Hc] Hstep. split.
      + eapply bounded_step; eassumption.
      + eapply metrics_current_step; eassumption.
    - split; [split; cbn; [reflexivity | lia]|].
      unfold metrics_current. cbn. repeat split. lia. }
  exact (proj2 H).
Qed.

Lemma X2_metrics_snapshot_is_current_witness :
  let ops := [Enqueue "f1" "jpeg" 100 100; Enqueue "f2" "jpeg" 110 110;
              Enqueue "f3" "jpeg" 200 200; DequeueCall 210] in
  exists w,
    run (newWorld 5 15) ops = Some w
    /\ Metrics.processedFrames (getMetrics (fq w)) = 0%nat
    /\ length (queue (fq w)) = 2%nat
    /\ Metrics.queueLength (getMetrics (fq w)) = 3%nat
    /\ Metrics.droppedFrames (getMetrics (fq w)) = droppedFrames (fq w).
Proof.
  intros ops. eexists. split; [vm_compute; reflexivity|].
  split; [reflexivity|]. split; [reflexivity|]. split; [reflexivity|].
  match goal with
  | |- context [fq ?w0] =>
      destruct (X2_metrics_snapshot_is_current 5 15 ops w0) as (Hd & _);
        [lia | vm_compute; reflexivity | exact Hd]
  end.
Defined.

Lemma Qnat_le (a b : nat) : (a <= b)%nat -> (Qnat a <= Qnat b)%Q.
Proof. intros H. unfold Qnat. rewrite <- Zle_Qle. lia. Qed.

Lemma Qnat_pos (a : nat) : (0 < a)%nat -> (0 < Qnat a)%Q.
Proof.
  intros H. unfold Qnat. change 0%Q with (inject_Z 0). rewrite <- Zlt_Qlt. lia.
Qed.

Lemma percentage_in_range (d t : nat) :
  (d <= t)%nat ->
  let r := if (0 <? t)%nat then (Qnat d / Qnat t * 100)%Q else 0%Q in
  (0 <= r)%Q /\ (r <= 100)%Q.
Proof.
  intros Hdt r. subst r. destruct (0 <? t)%nat eqn:E.
  - apply Nat.ltb_lt in E.
    pose proof (Qnat_pos t E) as Ht.
    pose proof (Qnat_le d t Hdt) as Hle.
    pose proof (Qnat_le 0 d (Nat.le_0_l d)) as Hd.
    change (Qnat 0) with 0%Q in Hd.
    assert (H0 : (0 <= Qnat d / Qnat t)%Q).
    { apply Qle_shift_div_l; [exact Ht|]. lra. }
    assert (H1 : (Qnat d / Qnat t <= 1)%Q).
    { apply Qle_shift_div_r; [exact Ht|]. lra. }
    split; lra.
  - split; lra.
Qed.

Lemma step_dropRate w op w' :
  step w op = Some w' ->
  Metrics.dropRate (metrics (fq w')) = Metrics.dropRate (metrics (fq w))
  \/ Metrics.dropRate (metrics (fq w'))
     = (if (0 <? totalFrames (fq w'))%nat
        then (Qnat (droppedFrames (fq w')) / Qnat (totalFrames (fq w'))
              * 100)%Q
        else 0%Q).
Proof.
  intros Hstep. destruct op as [fid fd ct now|ps|i o|]; cbn in Hstep.
  - inversion Hstep; subst w'; clear Hstep. fq_simpl.
    destruct (thinning_drops (fq w) || interval_gate_drops (fq w) now) eqn:G.
    + rewrite (enqueue_dropped _ _ _ _ _ G). right. reflexivity.
    + rewrite (enqueue_accepted _ _ _ _ _ G). cbv zeta.
      destruct (maxSize (fq w) <=? length (queue (fq w)))%nat;
        [destruct (queue (fq w))|]; (right; reflexivity) || (left; reflexivity).
  - destruct (dequeue_begin_cases (fq w)) as [[E _] | (f & rest & _ & _ & E)];
      rewrite E in Hstep; inversion Hstep; subst w'; left; reflexivity.
  - destruct (inflight w !! i) as [[f ps]|]; [|discriminate].
    inversion Hstep; subst w'; clear Hstep.
    destruct o; [right | left]; reflexivity.
  - inversion Hstep; subst w'; clear Hstep. fq_simpl. unfold autoAdjustFPS.
    destruct (length (processingTimes (fq w)) <? 5)%nat; [left; reflexivity|].
    destruct (num_ltb (num_times (frameInterval (fq w)) 1.5)
                (Finite (avgProcessingTime (fq w))));
      [right; reflexivity|].
    destruct (num_ltb (Finite (avgProcessingTime (fq w)))
                (num_times (frameInterval (fq w)) 0.5)
              && (length (queue (fq w)) <? 2)%nat);
      [right | left]; reflexivity.
Qed.

(** X3. Over every run, never more frames are counted as dropped than
    were submitted, and the drop rate [getMetrics()] reports is a
    percentage between 0 and 100. *)
Theorem X3_drop_rate_is_a_percentage
    (m : nat) (fps : Q) (ops : list Op) (w : World)
    (Hrun : run (newWorld m fps) ops = Some w) :
  (droppedFrames (fq w) <= totalFrames (fq w))%nat
  /\ (0 <= Metrics.dropRate (getMetrics (fq w)))%Q
  /\ (Metrics.dropRate (getMetrics (fq w)) <= 100)%Q.
Proof.
  assert (H : accounted w /\ dropRate_in_range w).
  { eapply (run_invariant (fun w => accounted w /\ dropRate_in_range w));
      [| |exact Hrun].
    - intros w1 op w2 [Ha Hr] Hstep.
      assert (Ha2 : accounted w2) by (eapply accounted_step; eassumption).
      split; [exact Ha2|]. unfold dropRate_in_range.
      destruct (step_dropRate w1 op w2 Hstep) as [E | E]; rewrite E.
      + exact Hr.
      + apply percentage_in_range. unfold accounted in Ha2. lia.
    - split; [reflexivity|]. split; cbn; lra. }
  destruct H as [Ha Hr]. split; [unfold accounted in Ha; lia | exact Hr].
Qed.

Lemma X3_drop_rate_is_a_percentage_witness :
  let ops := [Enqueue "f1" "jpeg" 10 10; Enqueue "f2" "jpeg" 100 100;
              Enqueue "f3" "jpeg" 200 200] in
  exists w,
    run (newWorld 1 15) ops = Some w
    /\ droppedFrames (fq w) = 2%nat
    /\ (Metrics.dropRate (getMetrics (fq w)) <= 100)%Q.
Proof.
  intros ops. eexists. split; [vm_compute; reflexivity|].
  split; [reflexivity|].
  match goal with
  | |- context [fq ?w0] =>
      destruct (X3_drop_rate_is_a_percentage 1 15 ops w0) as (_ & _ & H);
        [vm_compute; reflexivity | exact H]
  end.
Defined.

(** ** FrameQueue: the achieved rate *)

Lemma Qsum_acc_nonneg (l : list Q) : forall a,
  (0 <= a)%Q -> Forall (fun d => (0 <= d)%Q) l ->
  (0 <= fold_left Qplus l a)%Q.
Proof.
  induction l as [|x l IH]; intros a Ha Hl; cbn; [exact Ha|].
  inversion Hl; subst. apply IH; [lra | assumption].
Qed.

(** X4. Starting from a target rate within [5, 30], as long as no
    recorded processing duration is negative, the achieved rate
    [calculateActualFPS()] is 0 until two durations are recorded, and is
    always between 0 and the target rate, hence at most 30. *)
Theorem X4_actual_rate_within_target
    (m : nat) (fps : Q) (ops : list Op) (w : World)
    (Hlo : (5 <= fps)%Q) (Hhi : (fps <= 30)%Q)
    (Hrun : run (newWorld m fps) ops = Some w)
    (Hclock : durations_nonneg w) :
  (0 <= calculateActualFPS (fq w))%Q
  /\ (calculateActualFPS (fq w) <= targetFPS (fq w))%Q
  /\ (calculateActualFPS (fq w) <= 30)%Q
  /\ ((length (samples w) < 2)%nat -> calculateActualFPS (fq w) = 0%Q).
Proof.
  assert (Hr : rate_ok w).
  { eapply (run_invariant rate_ok); [| |exact Hrun].
    - intros w1 op w2. apply rate_ok_step.
    - repeat split; assumption. }
  assert (Hw : window_ok w).
  { eapply (run_invariant window_ok); [| |exact Hrun].
    - intros w1 op w2. apply window_ok_step.
    - repeat split; try (intros H; cbn in H; congruence). }
  destruct Hr as (Hlo' & Hhi' & _). destruct Hw as (_ & Hpt & Havg).
  assert (Hfew : (length (samples w) < 2)%nat ->
                 calculateActualFPS (fq w) = 0%Q).
  { intros Hlen. unfold calculateActualFPS. rewrite Hpt.
    unfold lastn. rewrite length_drop.
    destruct (Nat.ltb_spec (length (samples w) - (length (samples w) - 10)) 2);
      [reflexivity | lia]. }
  unfold calculateActualFPS in *.
  destruct (length (processingTimes (fq w)) <? 2)%nat eqn:L.
  { repeat split; lra. }
  apply Nat.ltb_ge in L.
  assert (Hne : samples w <> []).
  { intros E. rewrite Hpt, E in L. cbn in L. lia. }
  assert (Hanon : (0 <= avgProcessingTime (fq w))%Q).
  { rewrite (Havg Hne). rewrite <- Hpt.
    apply Qle_shift_div_l; [apply Qnat_pos; lia|].
    rewrite Qmult_0_l. apply Qsum_acc_nonneg; [lra|].
    rewrite Hpt. unfold lastn. apply Forall_drop. exact Hclock. }
  destruct (Qeq_bool (avgProcessingTime (fq w)) 0) eqn:Ez.
  { repeat split; lra. }
  apply Qeq_bool_neq in Ez.
  assert (Hapos : (0 < avgProcessingTime (fq w))%Q).
  { destruct (Qlt_le_dec 0 (avgProcessingTime (fq w))) as [H|H]; [exact H|].
    exfalso. apply Ez. apply Qle_antisym; assumption. }
  assert (Hq : (0 < 1000 / avgProcessingTime (fq w))%Q)
    by (apply Qlt_shift_div_l; lra).
  pose proof (Q.le_min_l (targetFPS (fq w))
                (1000 / avgProcessingTime (fq w))) as Hmin.
  split; [apply Q.min_glb; lra|]. split; [exact Hmin|].
  split; [lra | exact Hfew].
Qed.

Lemma X4_actual_rate_within_target_witness :
  exists w,
    run (newWorld 5 15) scenario_200ms = Some w
    /\ (calculateActualFPS (fq w) == 5)%Q
    /\ (calculateActualFPS (fq w) <= targetFPS (fq w))%Q.
Proof.
  eexists. split; [vm_compute; reflexivity|].
  split; [vm_compute; reflexivity|].
  match goal with
  | |- context [fq ?w0] =>
      destruct (X4_actual_rate_within_target 5 15 scenario_200ms w0)
        as (_ & H & _);
        [vm_compute; discriminate | vm_compute; discriminate
        | vm_compute; reflexivity | | exact H]
  end.
  unfold durations_nonneg. cbn.
  repeat (apply Forall_cons; split; [vm_compute; discriminate|]).
  apply Forall_nil_2.
Defined.

(** ** FrameQueue: [clear], [isOverloaded], and a zero [maxSize] *)

(** X5. [clear()] empties the queue and zeroes the counters, but it does
    not cancel a [dequeue] that is suspended at its [await]: it lowers
    the processing flag under it, so that the next accepted frame is
    handed to the processing function while the first call is still
    outstanding; and when that first call completes it counts its frame
    as processed although no frame has been submitted since. *)
Theorem X5_clear_does_not_cancel_inflight_dequeue
    (q : FrameQueue) (fid frameData : string) (captureTimestamp now : Q)
    (Hm : (1 <= maxSize q)%nat)
    (Hgates : thinning_drops (clear q) || interval_gate_drops (clear q) now
              = false) :
  queue (clear q) = [] /\ processing (clear q) = false
  /\ totalFrames (clear q) = 0%nat /\ droppedFrames (clear q) = 0%nat
  /\ processedFrames (clear q) = 0%nat
  /\ snd (dequeue_begin
            (fst (enqueue (clear q) fid frameData captureTimestamp now)))
     = Some (Frame.mk fid frameData captureTimestamp now)
  /\ forall frame processStart result processEnd,
       let q' := fst (dequeue_end (clear q) frame processStart
                        (Resolves result processEnd)) in
       processedFrames q' = 1%nat /\ totalFrames q' = 0%nat.
Proof.
  split; [reflexivity|]. split; [reflexivity|]. split; [reflexivity|].
  split; [reflexivity|]. split; [reflexivity|]. split.
  - rewrite (enqueue_accepted _ _ _ _ _ Hgates). cbv zeta.
    assert (L : (maxSize (clear q) <=? length (queue (clear q)))%nat = false).
    { apply Nat.leb_gt. cbn. lia. }
    rewrite L. reflexivity.
  - intros frame processStart result processEnd q'. subst q'.
    split; reflexivity.
Qed.

Lemma X5_clear_does_not_cancel_inflight_dequeue_witness :
  let ops := [Enqueue "f1" "jpeg" 100 100; DequeueCall 110] in
  exists w,
    run (newWorld 5 15) ops = Some w
    /\ processing (fq w) = true
    /\ inflight w = [(Frame.mk "f1" "jpeg" 100 100, 110%Q)]
    /\ snd (dequeue_begin (fst (enqueue (clear (fq w)) "f2" "jpeg" 200 200)))
       = Some (Frame.mk "f2" "jpeg" 200 200).
Proof.
  intros ops. eexists. split; [vm_compute; reflexivity|].
  split; [reflexivity|]. split; [reflexivity|].
  match goal with
  | |- context [clear ?q0] =>
      destruct (X5_clear_does_not_cancel_inflight_dequeue q0 "f2" "jpeg"
                  200 200) as (_ & _ & _ & _ & _ & H & _);
        [cbn; lia | vm_compute; reflexivity | exact H]
  end.
Defined.

(** X6. When [isOverloaded()] is false, an [enqueue] that accepts its
    frame evicts nothing: the frame is appended to the queue as it was
    and [droppedFrames] is unchanged. A queue holding [maxSize] frames
    or more is always overloaded. *)
Theorem X6_not_overloaded_accepts_without_eviction
    (q : FrameQueue) (fid frameData : string) (captureTimestamp now : Q)
    (Hnot : isOverloaded q = false)
    (Hacc : snd (enqueue q fid frameData captureTimestamp now)
            = Returned true) :
  queue (fst (enqueue q fid frameData captureTimestamp now))
  = queue q ++ [Frame.mk fid frameData captureTimestamp now]
  /\ droppedFrames (fst (enqueue q fid frameData captureTimestamp now))
     = droppedFrames q
  /\ forall q' : FrameQueue,
       (maxSize q' <= length (queue q'))%nat -> isOverloaded q' = true.
Proof.
  unfold isOverloaded in Hnot. apply orb_false_iff in Hnot as [_ Hlen].
  apply Nat.leb_gt in Hlen.
  destruct (enqueue_cases q fid frameData captureTimestamp now) as [_ Hc].
  cbv zeta in Hc.
  split; [|split].
  - destruct Hc as [(E & _) | [(_ & _ & Eq & _)
                   | [(_ & Hge & _) | (E & _)]]];
      [congruence | exact Eq | lia | congruence].
  - destruct Hc as [(E & _) | [(_ & _ & _ & Ed)
                   | [(_ & Hge & _) | (E & _)]]];
      [congruence | exact Ed | lia | congruence].
  - intros q' H. unfold isOverloaded.
    apply orb_true_iff. right. apply Nat.leb_le. exact H.
Qed.

Lemma X6_not_overloaded_accepts_without_eviction_witness :
  queue (fst (enqueue (newFrameQueue 5 15) "f1" "jpeg" 100 100))
  = [Frame.mk "f1" "jpeg" 100 100]
  /\ droppedFrames (fst (enqueue (newFrameQueue 5 15) "f1" "jpeg" 100 100))
     = 0%nat.
Proof.
  destruct (X6_not_overloaded_accepts_without_eviction
              (newFrameQueue 5 15) "f1" "jpeg" 100 100)
    as (H1 & H2 & _).
  - vm_compute. reflexivity.
  - vm_compute. reflexivity.
  - split; [exact H1 | exact H2].
Defined.

(** X7. A queue constructed with [maxSize] 0 never holds a frame: after
    every run the queue is empty and no [enqueue] returns [true]; an
    [enqueue] that passes both gates throws, after counting a drop, and
    leaves the queue empty. *)
Theorem X7_zero_maxSize_never_queues
    (fps : Q) (ops : list Op) (w : World)
    (Hrun : run (newWorld 0 fps) ops = Some w) :
  queue (fq w) = []
  /\ forall fid frameData captureTimestamp now,
       snd (enqueue (fq w) fid frameData captureTimestamp now)
       <> Returned true
       /\ (thinning_drops (fq w) || interval_gate_drops (fq w) now = false ->
           snd (enqueue (fq w) fid frameData captureTimestamp now) = Thrown
           /\ queue (fst (enqueue (fq w) fid frameData captureTimestamp now))
              = []
           /\ droppedFrames
                (fst (enqueue (fq w) fid frameData captureTimestamp now))
              = S (droppedFrames (fq w))).
Proof.
  assert (Hb : bounded 0 w).
  { eapply (run_invariant (bounded 0)); [| |exact Hrun].
    - intros w1 op w2. apply bounded_step.
    - split; cbn; [reflexivity | lia]. }
  destruct Hb as [Hmax Hlen].
  assert (Hq : queue (fq w) = []).
  { destruct (queue (fq w)); [reflexivity | cbn in Hlen; lia]. }
  split; [exact Hq|].
  intros fid frameData captureTimestamp now.
  destruct (thinning_drops (fq w) || interval_gate_drops (fq w) now) eqn:G.
  - rewrite (enqueue_dropped _ _ _ _ _ G). split; [discriminate|].
    intros H. discriminate H.
  - rewrite (enqueue_accepted _ _ _ _ _ G). cbv zeta.
    rewrite Hmax, Hq. cbn. split; [discriminate|].
    intros _. repeat split. exact Hq.
Qed.

Lemma X7_zero_maxSize_never_queues_witness :
  let ops := [Enqueue "f1" "jpeg" 100 100; DequeueCall 110] in
  exists w,
    run (newWorld 0 15) ops = Some w
    /\ queue (fq w) = [] /\ inflight w = []
    /\ droppedFrames (fq w) = 1%nat
    /\ snd (enqueue (fq w) "f2" "jpeg" 200 200) = Thrown.
Proof.
  intros ops. eexists. split; [vm_compute; reflexivity|].
  match goal with
  | |- context [fq ?w0] =>
      destruct (X7_zero_maxSize_never_queues 15 ops w0) as (Hq & Hen);
        [vm_compute; reflexivity|]
  end.
  split; [exact Hq|]. split; [reflexivity|]. split; [reflexivity|].
  destruct (Hen "f2" "jpeg" 200%Q 200%Q) as (_ & Hth).
  destruct Hth as (H & _); [vm_compute; reflexivity | exact H].
Defined.

(** ** Negotiation: what an offer does with the buffer *)

Lemma drainIceCandidates_exact b cs : forall n pc,
  peerConnectionRef n = Some pc ->
  drainIceCandidates b cs n
  = mkNegotiation
      (Some (mkPeerConnection (remoteDescription pc) (localDescription pc)
               (addIceCandidateCalls pc
                ++ map (fun c => (c, addIceCandidate_ok b c)) cs)))
      (match cs with [] => iceCandidateQueueRef n | _ => [] end)
      (errors n
       ++ map (fun _ => queued_candidate_error)
            (List.filter (fun c => negb (addIceCandidate_ok b c)) cs))
      (sentMessages n).
Proof.
  induction cs as [|c cs IH]; intros n pc Hpc; cbn [drainIceCandidates].
  - cbn. rewrite !app_nil_r. destruct n, pc; cbn in *. congruence.
  - unfold addIceCandidate. cbn [peerConnectionRef]. rewrite Hpc.
    cbn [map List.filter].
    destruct (addIceCandidate_ok b c); cbn [negb];
      erewrite IH by (cbn; reflexivity); cbn;
      rewrite <- ?app_assoc; cbn; destruct cs; reflexivity.
Qed.

Lemma handleOffer_succeeds
    (b : Browser) (sender_id : option string) (data answer_sd
      : SessionDescription) (n : Negotiation) :
  setRemoteDescription_ok b data = true ->
  createAnswer_result b = Some answer_sd ->
  setLocalDescription_ok b answer_sd = true ->
  let n' := handleOffer b sender_id data n in
  candidatesAdded n' = candidatesAdded n ++ iceCandidateQueueRef n
  /\ iceCandidateQueueRef n' = []
  /\ errors n'
     = errors n
       ++ map (fun _ => queued_candidate_error)
            (List.filter (fun c => negb (addIceCandidate_ok b c))
               (iceCandidateQueueRef n))
  /\ sentMessages n' = sentMessages n ++ [answer None answer_sd sender_id]
  /\ exists pc', peerConnectionRef n' = Some pc'
                 /\ remoteDescription pc' = Some data
                 /\ localDescription pc' = Some answer_sd.
Proof.
  intros Hsrd Hca Hsld n'. subst n'. unfold handleOffer.
  rewrite Hsrd, Hca, Hsld.
  unfold processQueuedIceCandidates.
  cbn [sendFrom set_peerConnection iceCandidateQueueRef peerConnectionRef
       errors sentMessages].
  erewrite drainIceCandidates_exact by (cbn; reflexivity).
  unfold candidatesAdded. cbn.
  split; [|split; [|split; [reflexivity|split; [reflexivity|]]]].
  - rewrite map_app, map_map. cbn. rewrite map_id.
    destruct (peerConnectionRef n); reflexivity.
  - destruct (iceCandidateQueueRef n); reflexivity.
  - eexists. repeat split.
Qed.

(** X8. A successfully handled offer passes every buffered candidate to
    [addIceCandidate], in arrival order and also after one of them was
    refused; it empties the buffer, logs one error per refused
    candidate, and sends exactly one answer, addressed to the sender of
    the offer. A missing connection object is created first. *)
Theorem X8_offer_attempts_every_buffered_candidate
    (b : Browser) (sender_id : option string) (data answer_sd
      : SessionDescription) (n : Negotiation)
    (Hsrd : setRemoteDescription_ok b data = true)
    (Hca : createAnswer_result b = Some answer_sd)
    (Hsld : setLocalDescription_ok b answer_sd = true) :
  let n' := handleOffer b sender_id data n in
  candidatesAdded n' = candidatesAdded n ++ iceCandidateQueueRef n
  /\ iceCandidateQueueRef n' = []
  /\ errors n'
     = errors n
       ++ map (fun _ => queued_candidate_error)
            (List.filter (fun c => negb (addIceCandidate_ok b c))
               (iceCandidateQueueRef n))
  /\ sentMessages n' = sentMessages n ++ [answer None answer_sd sender_id]
  /\ exists pc', peerConnectionRef n' = Some pc'
                 /\ remoteDescription pc' = Some data
                 /\ localDescription pc' = Some answer_sd.
Proof.
  exact (handleOffer_succeeds b sender_id data answer_sd n Hsrd Hca Hsld).
Qed.

Lemma X8_offer_attempts_every_buffered_candidate_witness :
  let n := receiveCandidates refuses_second three_candidates
             (mkNegotiation (Some setupPeerConnection) [] [] []) in
  let n' := handleOffer refuses_second (Some "phone")
              {| sdp := "v=0 offer"; sd_type := "offer" |} n in
  candidatesAdded n' = three_candidates
  /\ iceCandidateQueueRef n' = []
  /\ errors n' = [queued_candidate_error].
Proof.
  intros n n'.
  destruct (X8_offer_attempts_every_buffered_candidate refuses_second
              (Some "phone") {| sdp := "v=0 offer"; sd_type := "offer" |}
              {| sdp := "v=0 answer"; sd_type := "answer" |} n)
    as (H1 & H2 & H3 & _); try reflexivity.
  split; [exact H1|]. split; [exact H2 | exact H3].
Defined.

(** X9. An offer that fails, because the remote description is rejected,
    no answer can be created, or the answer is rejected as local
    description, sends no answer, calls [addIceCandidate] on nothing and
    leaves the buffered candidates in the buffer; it logs exactly one
    error, and a connection object exists afterwards. *)
Theorem X9_failed_offer_keeps_the_buffer
    (b : Browser) (sender_id : option string) (data : SessionDescription)
    (n : Negotiation)
    (Hfail : setRemoteDescription_ok b data = false
             \/ createAnswer_result b = None
             \/ exists a, createAnswer_result b = Some a
                          /\ setLocalDescription_ok b a = false) :
  let n' := handleOffer b sender_id data n in
  iceCandidateQueueRef n' = iceCandidateQueueRef n
  /\ sentMessages n' = sentMessages n
  /\ candidatesAdded n' = candidatesAdded n
  /\ errors n' = errors n ++ ["Failed to handle WebRTC offer"]
  /\ peerConnectionRef n' <> None.
Proof.
  intros n'. subst n'. unfold handleOffer, candidatesAdded.
  destruct (setRemoteDescription_ok b data) eqn:Hsrd.
  - destruct (createAnswer_result b) as [a|] eqn:Hca.
    + destruct (setLocalDescription_ok b a) eqn:Hsld.
      * exfalso. destruct Hfail as [H | [H | (a' & Ha & H)]];
          [discriminate | discriminate | congruence].
      * cbn. destruct (peerConnectionRef n); repeat split; discriminate.
    + cbn. destruct (peerConnectionRef n); repeat split; discriminate.
  - cbn. destruct (peerConnectionRef n); repeat split; discriminate.
Qed.

Lemma X9_failed_offer_keeps_the_buffer_witness :
  let n := receiveCandidates rejects_offers three_candidates
             (mkNegotiation (Some setupPeerConnection) [] [] []) in
  let n' := handleOffer rejects_offers None
              {| sdp := "garbage"; sd_type := "offer" |} n in
  iceCandidateQueueRef n' = three_candidates /\ sentMessages n' = [].
Proof.
  intros n n'.
  destruct (X9_failed_offer_keeps_the_buffer rejects_offers None
              {| sdp := "garbage"; sd_type := "offer" |} n)
    as (H1 & H2 & _); [left; reflexivity|].
  split; [exact H1 | exact H2].
Defined.

(** X10. An ICE candidate that arrives while there is no connection
    object is discarded: it is neither buffered nor added, one error is
    logged, and an offer handled successfully afterwards replays only
    what was in the buffer before. *)
Theorem X10_candidate_without_connection_is_lost
    (b : Browser) (c : IceCandidate) (n : Negotiation)
    (Hnone : peerConnectionRef n = None) :
  let n1 := handleIceCandidate b c n in
  iceCandidateQueueRef n1 = iceCandidateQueueRef n
  /\ candidatesAdded n1 = []
  /\ errors n1 = errors n ++ ["Failed to handle ICE candidate"]
  /\ forall sender_id data answer_sd,
       setRemoteDescription_ok b data = true ->
       createAnswer_result b = Some answer_sd ->
       setLocalDescription_ok b answer_sd = true ->
       candidatesAdded (handleOffer b sender_id data n1)
       = iceCandidateQueueRef n.
Proof.
  intros n1.
  assert (E : n1 = log_error "Failed to handle ICE candidate" n).
  { subst n1. unfold handleIceCandidate. rewrite Hnone. reflexivity. }
  rewrite E. unfold candidatesAdded at 1. cbn. rewrite Hnone.
  repeat split.
  intros sender_id data answer_sd Hsrd Hca Hsld.
  destruct (handleOffer_succeeds b sender_id data answer_sd
              (log_error "Failed to handle ICE candidate" n)
              Hsrd Hca Hsld) as (H & _).
  rewrite H. unfold candidatesAdded. cbn. rewrite Hnone. reflexivity.
Qed.

Lemma X10_candidate_without_connection_is_lost_witness :
  let n := mkNegotiation None [] [] [] in
  let c := {| candidate := "candidate:1"; sdpMid := "0";
              sdpMLineIndex := 0 |} in
  let n1 := handleIceCandidate all_ok c n in
  iceCandidateQueueRef n1 = []
  /\ candidatesAdded
       (handleOffer all_ok None {| sdp := "v=0 offer"; sd_type := "offer" |}
          n1) = [].
Proof.
  intros n c n1.
  destruct (X10_candidate_without_connection_is_lost all_ok c n)
    as (H1 & _ & _ & H4); [reflexivity|].
  split; [exact H1|].
  apply (H4 None _ {| sdp := "v=0 answer"; sd_type := "answer" |});
    reflexivity.
Defined.

(** ** Negotiation: arrival order, and what a stopped session leaves *)






(** X12. [stopSession] drops the connection object but not the candidate
    buffer: candidates buffered before the stop are still there after
    it, and the next offer that is handled successfully passes them, in
    order, to the connection object created for it. *)
Theorem X12_stopped_session_keeps_buffered_candidates
    (b : Browser) (n : Negotiation) (pc : PeerConnection)
    (cs : list IceCandidate)
    (sender_id : option string) (data answer_sd : SessionDescription)
    (Hpc : peerConnectionRef n = Some pc)
    (Hrd : remoteDescription pc = None)
    (Hsrd : setRemoteDescription_ok b data = true)
    (Hca : createAnswer_result b = Some answer_sd)
    (Hsld : setLocalDescription_ok b answer_sd = true) :
  let stopped := stopSession_negotiation (receiveCandidates b cs n) in
  peerConnectionRef stopped = None
  /\ iceCandidateQueueRef stopped = iceCandidateQueueRef n ++ cs
  /\ candidatesAdded (handleOffer b sender_id data stopped)
     = iceCandidateQueueRef n ++ cs.
Proof.
  intros stopped. subst stopped.
  rewrite (receiveCandidates_buffers b cs n pc Hpc Hrd).
  split; [reflexivity|]. split; [reflexivity|].
  destruct (handleOffer_succeeds b sender_id data answer_sd
              (stopSession_negotiation
                 (mkNegotiation (Some pc) (iceCandidateQueueRef n ++ cs)
                    (errors n) (sentMessages n))) Hsrd Hca Hsld)
    as (Ha & _).
  rewrite Ha. reflexivity.
Qed.

Lemma X12_stopped_session_keeps_buffered_candidates_witness :
  let n := mkNegotiation (Some setupPeerConnection) [] [] [] in
  let stopped := stopSession_negotiation
                   (receiveCandidates all_ok three_candidates n) in
  candidatesAdded
    (handleOffer all_ok None {| sdp := "v=0 offer"; sd_type := "offer" |}
       stopped)
  = three_candidates.
Proof.
  intros n stopped.
  exact (proj2 (proj2 (X12_stopped_session_keeps_buffered_candidates all_ok
                         n setupPeerConnection three_candidates None
                         {| sdp := "v=0 offer"; sd_type := "offer" |}
                         {| sdp := "v=0 answer"; sd_type := "answer" |}
                         eq_refl eq_refl eq_refl eq_refl eq_refl))).
Defined.

(** ** Signaling: what happens to an offer *)

(** X13. While HTTP signaling is the active transport, an offer whose
    POST fails is not kept for a retry: [startLocalCamera] takes the
    Promise returned by [send] for a success, stores nothing, and no
    later transport-ready event sends the offer. *)
Theorem X13_offer_over_http_is_never_stored
    (s : Signaling) (o : SignalingMessage) (postOk : bool)
    (events : list ReadyEvent)
    (Hhttp : signalingRef s = Some HTTPTransport)
    (Hnone : pendingOffer s = None) (Hoffer : is_offer o = true) :
  let s1 := startLocalCamera_sendOffer postOk o s in
  let s2 := foldl onReady s1 events in
  pendingOffer s1 = None
  /\ wire s1 = wire s ++ [mkSendAttempt HTTPTransport o postOk]
  /\ pendingOffer s2 = None
  /\ offerAttempts (wire s2)
     = offerAttempts (wire s) ++ [mkSendAttempt HTTPTransport o postOk].
Proof.
  intros s1 s2.
  assert (H1 : pendingOffer s1 = None
               /\ wire s1 = wire s ++ [mkSendAttempt HTTPTransport o postOk]).
  { subst s1. unfold startLocalCamera_sendOffer, sendSignalingMessage.
    rewrite Hhttp. cbn. split; [exact Hnone | reflexivity]. }
  destruct H1 as [Hp Hw]. split; [exact Hp|]. split; [exact Hw|].
  destruct (ready_events_without_pending events s1 Hp) as [Hp2 Hw2].
  split; [exact Hp2|]. fold s2 in Hw2. rewrite Hw2, Hw.
  unfold offerAttempts. rewrite List.filter_app. cbn. rewrite Hoffer.
  reflexivity.
Qed.

Lemma X13_offer_over_http_is_never_stored_witness :
  let s := mkSignaling (Some HTTPTransport) false None [] in
  let s2 := foldl onReady (startLocalCamera_sendOffer false an_offer s)
              [HttpConnected true; WsOpen] in
  pendingOffer s2 = None
  /\ offerAttempts (wire s2) = [mkSendAttempt HTTPTransport an_offer false].
Proof.
  intros s s2.
  destruct (X13_offer_over_http_is_never_stored s an_offer false
              [HttpConnected true; WsOpen] eq_refl eq_refl eq_refl)
    as (_ & _ & H3 & H4).
  split; [exact H3 | exact H4].
Defined.

(** The transport a ready event brings, and whether a message sent on
    it right then is delivered. *)
Lemma onReady_with_pending s o e :
  pendingOffer s = Some o ->
  pendingOffer (onReady s e) = None
  /\ offerAttempts (wire (onReady s e))
     = offerAttempts (wire s)
       ++ (if is_offer o
           then [match e with
                 | WsOpen => mkSendAttempt WebSocketTransport o true
                 | HttpConnected postOk =>
                     mkSendAttempt HTTPTransport o postOk
                 end]
           else []).
Proof.
  intros Hp. destruct e as [|postOk]; cbn [onReady].
  - destruct (ws_onopen_sends_pending_offer s o Hp) as [Hw Hn].
    split; [exact Hn|]. rewrite Hw. unfold offerAttempts.
    rewrite List.filter_app. cbn. destruct (is_offer o); reflexivity.
  - unfold initHTTPSignaling, httpSignaling_send. cbn. rewrite Hp. cbn.
    split; [reflexivity|]. unfold offerAttempts.
    rewrite List.filter_app. cbn. destruct (is_offer o); reflexivity.
Qed.

(** X14. An offer produced while no transport is set is stored, not
    sent; at the first transport-ready event it is sent once and the
    pending entry is cleared, and whatever ready events follow it is
    never sent again. It is delivered if that first event is a WebSocket
    opening, or an HTTP connect whose POST succeeds. *)
Theorem X14_stored_offer_is_sent_exactly_once
    (s : Signaling) (o : SignalingMessage) (postOk : bool)
    (first : ReadyEvent) (events : list ReadyEvent)
    (Href : signalingRef s = None) (Hoffer : is_offer o = true) :
  let s1 := startLocalCamera_sendOffer postOk o s in
  let s2 := foldl onReady s1 (first :: events) in
  pendingOffer s1 = Some o /\ wire s1 = wire s
  /\ pendingOffer s2 = None
  /\ offerAttempts (wire s2)
     = offerAttempts (wire s)
       ++ [match first with
           | WsOpen => mkSendAttempt WebSocketTransport o true
           | HttpConnected ok => mkSendAttempt HTTPTransport o ok
           end].
Proof.
  intros s1 s2.
  assert (H1 : pendingOffer s1 = Some o /\ wire s1 = wire s).
  { subst s1. unfold startLocalCamera_sendOffer, sendSignalingMessage.
    rewrite Href. cbn. split; reflexivity. }
  destruct H1 as [Hp Hw]. split; [exact Hp|]. split; [exact Hw|].
  subst s2. cbn [foldl].
  destruct (onReady_with_pending s1 o first Hp) as [Hp1 Hw1].
  destruct (ready_events_without_pending events _ Hp1) as [Hp2 Hw2].
  split; [exact Hp2|]. rewrite Hw2, Hw1, Hw, Hoffer. reflexivity.
Qed.

Lemma X14_stored_offer_is_sent_exactly_once_witness :
  let s := mkSignaling None false None [] in
  let s2 := foldl onReady (startLocalCamera_sendOffer true an_offer s)
              [WsOpen; HttpConnected true; WsOpen] in
  pendingOffer s2 = None
  /\ offerAttempts (wire s2)
     = [mkSendAttempt WebSocketTransport an_offer true].
Proof.
  intros s s2.
  destruct (X14_stored_offer_is_sent_exactly_once s an_offer true WsOpen
              [HttpConnected true; WsOpen] eq_refl eq_refl)
    as (_ & _ & H3 & H4).
  split; [exact H3 | exact H4].
Defined.

(** ** HTTP signaling: the poll timer *)

Lemma one_timer_startPolling (h : HTTPSignaling.t) :
  (1 <= HTTPSignaling.nextTimer h)%nat ->
  HTTPSignaling.one_timer h ->
  (1 <= HTTPSignaling.nextTimer (HTTPSignaling.startPolling h))%nat
  /\ HTTPSignaling.one_timer (HTTPSignaling.startPolling h).
Proof.
  unfold HTTPSignaling.one_timer, HTTPSignaling.startPolling.
  intros Hn [[Hp Ha] | [Hp Ha]]; rewrite Hp; cbn.
  - split; [lia|]. right. split; [reflexivity|]. rewrite Ha.
    eexists. split; [exact Hn|]. split; reflexivity.
  - split; [exact Hn|]. right. split; [exact Hp | exact Ha].
Qed.

Lemma one_timer_call (h : HTTPSignaling.t) (c : HTTPSignaling.Call) :
  (1 <= HTTPSignaling.nextTimer h)%nat ->
  HTTPSignaling.one_timer h ->
  (1 <= HTTPSignaling.nextTimer (HTTPSignaling.call h c))%nat
  /\ HTTPSignaling.one_timer (HTTPSignaling.call h c).
Proof.
  intros Hn Hone.
  destruct c as [o| |]; cbn [HTTPSignaling.call].
  - destruct o; cbn [HTTPSignaling.connect fst].
    + apply one_timer_startPolling; cbn; assumption.
    + split; assumption.
    + split; assumption.
  - apply one_timer_startPolling; assumption.
  - unfold HTTPSignaling.one_timer, HTTPSignaling.close in *. cbn.
    split; [exact Hn|]. left. split; [reflexivity|].
    destruct Hone as [[_ Ha] | [_ (id & Hid1 & Hid & Ha)]]; rewrite Ha.
    + destruct (HTTPSignaling.pollInterval h) as [[|id]|]; reflexivity.
    + rewrite Hid. destruct id as [|id]; [lia|].
      cbn. rewrite Nat.eqb_refl. reflexivity.
Qed.

(** X15. Whatever sequence of [connect], [startPolling] and [close]
    calls is made on an HTTPSignaling object (timer identifiers being
    positive), at most one poll timer is running, one is running exactly
    while [polling] is set, and none is left running after [close]. *)
Theorem X15_at_most_one_poll_timer
    (roomId clientId : string) (nextTimer : nat)
    (calls : list HTTPSignaling.Call)
    (Hpos : (1 <= nextTimer)%nat) :
  let h := foldl HTTPSignaling.call
             (HTTPSignaling.new roomId clientId nextTimer) calls in
  (length (HTTPSignaling.activeIntervals h) <= 1)%nat
  /\ (HTTPSignaling.polling h = true
      <-> length (HTTPSignaling.activeIntervals h) = 1%nat)
  /\ HTTPSignaling.activeIntervals (HTTPSignaling.close h) = []
  /\ HTTPSignaling.polling (HTTPSignaling.close h) = false.
Proof.
  intros h.
  assert (H : (1 <= HTTPSignaling.nextTimer h)%nat
              /\ HTTPSignaling.one_timer h).
  { subst h.
    assert (H0 : (1 <= HTTPSignaling.nextTimer
                          (HTTPSignaling.new roomId clientId nextTimer))%nat
                 /\ HTTPSignaling.one_timer
                      (HTTPSignaling.new roomId clientId nextTimer)).
    { split; [exact Hpos|]. left. split; reflexivity. }
    revert H0. generalize (HTTPSignaling.new roomId clientId nextTimer).
    induction calls as [|c calls IH]; intros h0 [Hn Hone]; cbn [foldl].
    - split; assumption.
    - apply IH. apply one_timer_call; assumption. }
  destruct H as [Hn Hone].
  destruct (one_timer_call h HTTPSignaling.Close Hn Hone) as [_ Hclosed].
  cbn [HTTPSignaling.call] in Hclosed.
  split; [|split; [|split]].
  - destruct Hone as [[_ Ha] | [_ (id & _ & _ & Ha)]]; rewrite Ha; cbn; lia.
  - destruct Hone as [[Hp Ha] | [Hp (id & _ & _ & Ha)]]; rewrite Hp, Ha; cbn;
      split; intros; (reflexivity || discriminate).
  - destruct Hclosed as [[_ Ha] | [Hp _]]; [exact Ha | discriminate Hp].
  - reflexivity.
Qed.

Lemma X15_at_most_one_poll_timer_witness :
  let h := foldl HTTPSignaling.call (HTTPSignaling.new "ROOM42" "client_1" 7)
             [HTTPSignaling.Connect HTTPSignaling.JoinOk;
              HTTPSignaling.StartPolling; HTTPSignaling.Close;
              HTTPSignaling.Connect HTTPSignaling.JoinNotOk;
              HTTPSignaling.Connect HTTPSignaling.JoinOk] in
  HTTPSignaling.activeIntervals h = [8%nat]
  /\ (length (HTTPSignaling.activeIntervals h) <= 1)%nat.
Proof.
  intros h. split; [reflexivity|].
  apply (X15_at_most_one_poll_timer "ROOM42" "client_1" 7). lia.
Defined.

(** ** Detection results: the latency windows *)

Lemma lastn_push {A} (n : nat) (s : list A) (t : A) :
  (1 <= n)%nat ->
  (let l := lastn n s ++ [t] in
   if (n <? length l)%nat then shift l else l)
  = lastn n (s ++ [t]).
Proof.
  intros Hn. cbv zeta. unfold lastn.
  rewrite !length_app, length_drop. cbn [length].
  destruct (n <? length s - (length s - n) + 1)%nat eqn:E.
  - apply Nat.ltb_lt in E.
    assert (Hs : (n <= length s)%nat) by lia.
    replace (length s + 1 - n)%nat with (S (length s - n)) by lia.
    rewrite drop_app_le by lia.
    rewrite <- shift_drop.
    destruct (drop (length s - n) s) as [|x l] eqn:D.
    + apply (f_equal length) in D. rewrite length_drop in D. cbn in D. lia.
    + reflexivity.
  - apply Nat.ltb_ge in E.
    replace (length s - n)%nat with 0%nat by lia.
    replace (length s + 1 - n)%nat with 0%nat by lia.
    rewrite !drop_0. reflexivity.
Qed.

Lemma lastn_all {A} (n : nat) (l : list A) :
  (length l <= n)%nat -> lastn n l = l.
Proof.
  intros H. unfold lastn. replace (length l - n)%nat with 0%nat by lia.
  apply drop_0.
Qed.

Lemma length_lastn {A} (n : nat) (l : list A) :
  length (lastn n l) = Nat.min n (length l).
Proof. unfold lastn. rewrite length_drop. lia. Qed.

Lemma handleAll_windows rs : forall d L D,
  latencies d = lastn 100 L -> detectionTimes d = lastn 100 D ->
  length L = length D ->
  latencies (handleAll rs d) = lastn 100 (L ++ map e2e rs)
  /\ detectionTimes (handleAll rs d) = lastn 100 (D ++ map server_latency rs)
  /\ promises (handleAll rs d) = promises d
  /\ resolveCalls (handleAll rs d) = resolveCalls d
  /\ pendingDetections (handleAll rs d) = pendingDetections d.
Proof.
  unfold handleAll.
  induction rs as [|r rs IH]; intros d L D HL HD Hlen; cbn [foldl map].
  - rewrite !app_nil_r. repeat split; assumption.
  - set (d1 := handleDetectionResult (fst r) (snd r) d).
    assert (H1 : latencies d1 = lastn 100 (L ++ [e2e r])
                 /\ detectionTimes d1 = lastn 100 (D ++ [server_latency r])).
    { subst d1. unfold handleDetectionResult. cbv zeta.
      cbn [latencies detectionTimes]. rewrite HL, HD.
      pose proof (lastn_push 100 L (e2e r)) as PL.
      pose proof (lastn_push 100 D (server_latency r)) as PD.
      cbv zeta in PL, PD.
      assert (Hsame : length (lastn 100 L ++ [e2e r])
                      = length (lastn 100 D ++ [server_latency r])).
      { rewrite !length_app, !length_lastn, Hlen. reflexivity. }
      unfold e2e, server_latency in *. rewrite Hsame at 2.
      rewrite PL, PD by lia. split; reflexivity. }
    destruct H1 as [HL1 HD1].
    destruct (IH d1 _ _ HL1 HD1) as (E1 & E2 & E3 & E4 & E5).
    { rewrite !length_app, Hlen. reflexivity. }
    rewrite <- !app_assoc in E1, E2.
    split; [exact E1|]. split; [exact E2|].
    rewrite E3, E4, E5. repeat split.
Qed.

(** X16. [handleDetectionResult] keeps the two latency windows in step
    and bounded: after any number of results the windows have the same
    length, at most 100, and hold the end-to-end and inference latencies
    of the last 100 results in arrival order. Handling a result never
    touches a Promise or the pending table. *)
Theorem X16_latency_windows_keep_last_100
    (d : Dispatcher) (rs : list (Q * DetectionResult))
    (Hlen : length (latencies d) = length (detectionTimes d))
    (Hmax : (length (latencies d) <= 100)%nat) :
  let d' := handleAll rs d in
  latencies d' = lastn 100 (latencies d ++ map e2e rs)
  /\ detectionTimes d'
     = lastn 100 (detectionTimes d ++ map server_latency rs)
  /\ length (latencies d') = length (detectionTimes d')
  /\ (length (latencies d') <= 100)%nat
  /\ promises d' = promises d /\ resolveCalls d' = resolveCalls d
  /\ pendingDetections d' = pendingDetections d.
Proof.
  intros d'. subst d'.
  destruct (handleAll_windows rs d (latencies d) (detectionTimes d))
    as (E1 & E2 & E3 & E4 & E5).
  - symmetry. apply lastn_all. exact Hmax.
  - symmetry. apply lastn_all. lia.
  - exact Hlen.
  - split; [exact E1|]. split; [exact E2|].
    rewrite E1, E2, !length_lastn, !length_app, !length_map, Hlen.
    split; [reflexivity|]. split; [lia|]. auto.
Qed.

Lemma X16_latency_windows_keep_last_100_witness :
  let rs := replicate 150 (7000%Q, late_result) in
  let d' := handleAll rs idle_dispatcher in
  length (latencies d') = 100%nat
  /\ length (detectionTimes d') = 100%nat.
Proof.
  intros rs d'.
  destruct (X16_latency_windows_keep_last_100 idle_dispatcher rs)
    as (E1 & E2 & _); [reflexivity | cbn; lia |].
  fold d' in E1, E2. rewrite E1, E2, !length_lastn, !length_app, !length_map.
  subst rs. rewrite length_replicate. split; reflexivity.
Defined.

(** ** Remote detection: answered, unsendable and abandoned requests *)

Lemma request_registered d frame :
  signalingUp d = true -> resolve_log_wf d ->
  let d1 := fst (processServerDetection frame d) in
  let p := snd (processServerDetection frame d) in
  lookupPending (Frame.id frame) d1 = Some p
  /\ promises d1 !! p = Some None
  /\ resolveCallsOn p d1 = []
  /\ resolveCalls d1 = resolveCalls d.
Proof.
  intros Hup Hwf d1 p. subst d1 p.
  unfold processServerDetection. cbn. rewrite Hup. cbn.
  split; [|split; [|split]].
  - unfold lookupPending. cbn. apply lookup_insert_eq.
  - rewrite lookup_app_r by lia. rewrite Nat.sub_diag. reflexivity.
  - unfold resolveCallsOn. cbn. apply (resolveCallsOn_fresh d Hwf).
  - reflexivity.
Qed.

(** X17. A [detection_result] that arrives while its request is still
    pending settles the request's Promise with that message, by the only
    [resolve] call made on it, and removes the pending entry; the
    dispatcher itself does not record or display the result, and the
    request's timer firing afterwards changes nothing. *)
Theorem X17_result_before_timeout_settles_request
    (d : Dispatcher) (frame : Frame.t)
    (Hup : signalingUp d = true) (Hwf : resolve_log_wf d) :
  let d1 := fst (processServerDetection frame d) in
  let p := snd (processServerDetection frame d) in
  let fid := Frame.id frame in
  lookupPending fid d1 = Some p
  /\ forall d' : Dispatcher,
       lookupPending fid d' = Some p -> promises d' !! p = Some None ->
       resolveCallsOn p d' = [] ->
       forall now message,
         frame_id message = fid ->
         let d2 := onDetectionResult now message d' in
         promises d2 !! p = Some (Some (Some message))
         /\ resolveCallsOn p d2 = [(p, Some message)]
         /\ lookupPending fid d2 = None
         /\ latencies d2 = latencies d'
         /\ shownDetections d2 = shownDetections d'
         /\ appMetrics d2 = appMetrics d'
         /\ timeoutFires fid p d2 = d2.
Proof.
  intros d1 p fid.
  destruct (request_registered d frame Hup Hwf) as (Hreg & _).
  split; [exact Hreg|].
  intros d' Hpend Hprom Hcalls now message Hid d2.
  assert (Hnone : lookupPending fid d2 = None).
  { subst d2. unfold onDetectionResult. rewrite Hid, Hpend.
    unfold lookupPending in *. cbn.
    destruct (pendingDetections d') as [t|]; [|discriminate].
    apply lookup_delete_eq. }
  split; [|split; [|split; [exact Hnone|]]].
  - subst d2. unfold onDetectionResult. rewrite Hid, Hpend. cbn.
    rewrite Hprom. apply list_lookup_insert_eq.
    eapply lookup_lt_Some. exact Hprom.
  - subst d2. unfold onDetectionResult. rewrite Hid, Hpend.
    unfold resolveCallsOn in *. cbn. rewrite List.filter_app, Hcalls. cbn.
    rewrite Nat.eqb_refl. reflexivity.
  - subst d2. unfold onDetectionResult. rewrite Hid, Hpend. cbn.
    repeat split. unfold timeoutFires.
    fold (onDetectionResult now message d') in Hnone.
    unfold onDetectionResult in Hnone. rewrite Hid, Hpend in Hnone.
    rewrite Hnone. reflexivity.
Qed.

Lemma X17_result_before_timeout_settles_request_witness :
  let d1 := fst (processServerDetection frame_1 idle_dispatcher) in
  let d2 := onDetectionResult 1400 late_result d1 in
  promises d2 !! 0%nat = Some (Some (Some late_result))
  /\ latencies d2 = []
  /\ timeoutFires "frame_1" 0 d2 = d2.
Proof.
  intros d1 d2.
  destruct (request_registered idle_dispatcher frame_1 eq_refl
              (Forall_nil_2 _)) as (Hpend & Hprom & Hcalls & _).
  destruct (X17_result_before_timeout_settles_request idle_dispatcher frame_1
              eq_refl (Forall_nil_2 _)) as (_ & H).
  destruct (H _ Hpend Hprom Hcalls 1400%Q late_result eq_refl)
    as (H1 & _ & _ & H4 & _ & _ & H7).
  split; [exact H1|]. split; [exact H4 | exact H7].
Defined.

(** X18. A remote-detection request made while there is no signaling
    connection resolves to [null] at once: its Promise is settled with
    [null] by a single [resolve] call, no pending entry is created and
    no message is sent. *)
Theorem X18_request_without_signaling_resolves_null
    (d : Dispatcher) (frame : Frame.t)
    (Hdown : signalingUp d = false) (Hwf : resolve_log_wf d) :
  let d1 := fst (processServerDetection frame d) in
  let p := snd (processServerDetection frame d) in
  promises d1 !! p = Some (Some None)
  /\ resolveCallsOn p d1 = [(p, None)]
  /\ pendingDetections d1 = pendingDetections d
  /\ outbox d1 = outbox d
  /\ forall q, (q < p)%nat -> promises d1 !! q = promises d !! q.
Proof.
  intros d1 p. subst d1 p. unfold processServerDetection. cbn.
  rewrite Hdown. cbn.
  assert (Hnew : (promises d ++ [None]) !! length (promises d)
                 = Some (@None (option DetectionResult))).
  { rewrite lookup_app_r by lia. rewrite Nat.sub_diag. reflexivity. }
  rewrite Hnew.
  split; [|split; [|split; [reflexivity|split; [reflexivity|]]]].
  - apply list_lookup_insert_eq. rewrite length_app. cbn. lia.
  - unfold resolveCallsOn. cbn. rewrite List.filter_app.
    change (List.filter _ (resolveCalls d))
      with (resolveCallsOn (length (promises d)) d).
    rewrite (resolveCallsOn_fresh d Hwf). cbn.
    rewrite Nat.eqb_refl. reflexivity.
  - intros q Hq. rewrite list_lookup_insert_ne by lia.
    apply lookup_app_l. exact Hq.
Qed.

Lemma X18_request_without_signaling_resolves_null_witness :
  let d := mkDispatcher false None [] [] [] [] [] [] (AppMetrics.mk 0 0 0 0)
             ServerMode 0 in
  let d1 := fst (processServerDetection frame_1 d) in
  promises d1 !! 0%nat = Some (Some None) /\ outbox d1 = [].
Proof.
  intros d d1.
  destruct (X18_request_without_signaling_resolves_null d frame_1 eq_refl
              (Forall_nil_2 _)) as (H1 & _ & _ & H4 & _).
  split; [exact H1 | exact H4].
Defined.

Lemma dispatch_with_empty_table d e :
  pendingDetections d = Some ∅ ->
  promises (dispatch d e) = promises d
  /\ resolveCalls (dispatch d e) = resolveCalls d
  /\ pendingDetections (dispatch d e) = Some ∅.
Proof.
  intros Hp.
  assert (Hnone : forall k, lookupPending k d = None).
  { intros k. unfold lookupPending. rewrite Hp. apply lookup_empty. }
  destruct e as [fid p | now message]; cbn [dispatch].
  - unfold timeoutFires. rewrite Hnone. repeat split. exact Hp.
  - rewrite onDetectionResult_unmatched by apply Hnone.
    repeat split. exact Hp.
Qed.

(** X19. [stopSession] abandons outstanding remote-detection requests
    without settling them: after it has replaced the pending table, the
    request's own timer and any results that arrive make no [resolve]
    call, so the Promise of a request that was pending stays pending. *)
Theorem X19_stopSession_leaves_request_unsettled
    (d : Dispatcher) (frame : Frame.t) (events : list DispatchEvent)
    (Hup : signalingUp d = true) (Hwf : resolve_log_wf d) :
  let d1 := fst (processServerDetection frame d) in
  let p := snd (processServerDetection frame d) in
  let d3 := foldl dispatch (stopSession_dispatcher d1) events in
  promises d3 !! p = Some None
  /\ resolveCalls d3 = resolveCalls d
  /\ pendingDetections d3 = Some ∅.
Proof.
  intros d1 p d3.
  destruct (request_registered d frame Hup Hwf) as (Hpend & Hprom & _ & Hrc).
  fold d1 p in Hpend, Hprom, Hrc.
  assert (H : promises d3 = promises d1 /\ resolveCalls d3 = resolveCalls d1
              /\ pendingDetections d3 = Some ∅).
  { subst d3.
    assert (H0 : pendingDetections (stopSession_dispatcher d1) = Some ∅).
    { unfold stopSession_dispatcher. cbn.
      unfold lookupPending in Hpend.
      destruct (pendingDetections d1); [reflexivity | discriminate]. }
    change (promises d1) with (promises (stopSession_dispatcher d1)).
    change (resolveCalls d1) with (resolveCalls (stopSession_dispatcher d1)).
    revert H0. generalize (stopSession_dispatcher d1).
    induction events as [|e events IH]; intros d0 H0; cbn [foldl].
    - repeat split. exact H0.
    - destruct (dispatch_with_empty_table d0 e H0) as (E1 & E2 & E3).
      destruct (IH _ E3) as (I1 & I2 & I3).
      rewrite I1, I2, E1, E2. repeat split. exact I3. }
  destruct H as (E1 & E2 & E3).
  rewrite E1, E2, Hrc. repeat split; assumption.
Qed.

Lemma X19_stopSession_leaves_request_unsettled_witness :
  let d1 := fst (processServerDetection frame_1 idle_dispatcher) in
  let d3 := foldl dispatch (stopSession_dispatcher d1)
              [ResultArrives 1400 late_result; TimerFires "frame_1" 0] in
  promises d3 !! 0%nat = Some None /\ resolveCalls d3 = [].
Proof.
  intros d1 d3.
  destruct (X19_stopSession_leaves_request_unsettled idle_dispatcher frame_1
              [ResultArrives 1400 late_result; TimerFires "frame_1" 0]
              eq_refl (Forall_nil_2 _)) as (H1 & H2 & _).
  split; [exact H1 | exact H2].
Defined.

(** ** Parsing the model outputs *)

Lemma Qnat_lt_inv (a b : nat) : (Qnat a < Qnat b)%Q -> (a < b)%nat.
Proof. unfold Qnat. rewrite <- Zlt_Qlt. lia. Qed.

Lemma loop_Forall (P : Wasm.Detection -> Prop) nts boxes classes scores thr
    bound :
  (forall i, Wasm.below (scores !! i) thr = false ->
             P (Wasm.detectionAt nts boxes classes scores i)) ->
  forall fuel i acc,
    Forall P acc ->
    Forall P (Wasm.loop nts boxes classes scores thr bound fuel i acc).
Proof.
  intros Hbody. induction fuel as [|fuel IH]; intros i acc Hacc; cbn.
  - exact Hacc.
  - destruct (Qltb (Qnat i) bound); [|exact Hacc].
    destruct (Wasm.below (scores !! i) thr) eqn:B.
    + apply IH. exact Hacc.
    + apply IH. apply Forall_app. split; [exact Hacc|].
      apply Forall_cons. split; [|apply Forall_nil_2]. apply Hbody. exact B.
Qed.

Lemma loop_length nts boxes classes scores thr bound k :
  (bound <= Qnat k)%Q ->
  forall fuel i acc,
    (length (Wasm.loop nts boxes classes scores thr bound fuel i acc)
     <= length acc + (k - i))%nat.
Proof.
  intros Hk. induction fuel as [|fuel IH]; intros i acc; cbn; [lia|].
  destruct (Qltb (Qnat i) bound) eqn:E; [|lia].
  apply Qltb_true in E.
  assert (Hik : (i < k)%nat) by (apply Qnat_lt_inv; lra).
  destruct (Wasm.below (scores !! i) thr).
  - etrans; [apply IH|]. lia.
  - etrans; [apply IH|]. rewrite length_app. cbn. lia.
Qed.

Lemma loop_fuel nts boxes classes scores thr bound k :
  (bound <= Qnat k)%Q ->
  forall fuel extra i acc,
    (k <= i + fuel)%nat ->
    Wasm.loop nts boxes classes scores thr bound (fuel + extra) i acc
    = Wasm.loop nts boxes classes scores thr bound fuel i acc.
Proof.
  intros Hk. induction fuel as [|fuel IH]; intros extra i acc Hi.
  - cbn [Nat.add Wasm.loop]. destruct extra as [|extra]; [reflexivity|].
    cbn. assert (E : Qltb (Qnat i) bound = false).
    { apply Qltb_false. assert (Hki : (k <= i)%nat) by lia.
      pose proof (Qnat_le k i Hki). lra. }
    rewrite E. reflexivity.
  - cbn. destruct (Qltb (Qnat i) bound); [|reflexivity].
    destruct (Wasm.below (scores !! i) thr); apply IH; lia.
Qed.

(** X20. [parseDetections] never returns more than 100 detections, nor
    more than the number of detections the model reports, and every
    detection it returns that has a score has one at or above the
    confidence threshold; when an output tensor is missing it returns
    the empty list. Its loop ends within the 100 rounds of the bound:
    more rounds would add nothing. *)
Theorem X20_parsed_detections_meet_threshold
    (numberToString : option Z -> string) (results : Wasm.Results)
    (confidenceThreshold : Q) :
  let ds := Wasm.parseDetections numberToString results
              confidenceThreshold in
  (length ds <= 100)%nat
  /\ Forall (fun d => forall s, Wasm.confidence d = Some s ->
                                (confidenceThreshold <= s)%Q) ds
  /\ (forall num nd k,
        Wasm.numDetections results = Some num -> num !! 0%nat = Some nd ->
        (nd <= Qnat k)%Q -> (length ds <= k)%nat)
  /\ (Wasm.boxes results = None \/ Wasm.classes results = None
      \/ Wasm.scores results = None \/ Wasm.numDetections results = None ->
      ds = [])
  /\ (forall boxes classes scores nd extra,
        Wasm.loop numberToString boxes classes scores confidenceThreshold
          (Qmin nd 100) (100 + extra) 0 []
        = Wasm.loop numberToString boxes classes scores confidenceThreshold
            (Qmin nd 100) 100 0 []).
Proof.
  intros ds. subst ds. unfold Wasm.parseDetections.
  assert (H100 : forall nd, (Qmin nd 100 <= Qnat 100)%Q)
    by (intros nd; apply Q.le_min_r).
  split; [|split; [|split; [|split]]].
  - destruct (Wasm.boxes results) as [boxes|]; [|cbn; lia].
    destruct (Wasm.classes results) as [classes|]; [|cbn; lia].
    destruct (Wasm.scores results) as [scores|]; [|cbn; lia].
    destruct (Wasm.numDetections results) as [num|]; [|cbn; lia].
    destruct (num !! 0%nat) as [nd|]; [|cbn; lia].
    etrans; [apply (loop_length _ _ _ _ _ _ 100 (H100 nd))|]. cbn. lia.
  - destruct (Wasm.boxes results) as [boxes|]; [|constructor].
    destruct (Wasm.classes results) as [classes|]; [|constructor].
    destruct (Wasm.scores results) as [scores|]; [|constructor].
    destruct (Wasm.numDetections results) as [num|]; [|constructor].
    destruct (num !! 0%nat) as [nd|]; [|constructor].
    apply loop_Forall; [|constructor].
    intros i B s Hs. unfold Wasm.detectionAt in Hs. cbn in Hs.
    rewrite Hs in B. cbn in B. apply Qltb_false in B. exact B.
  - intros num nd k Hnum Hnd Hk. rewrite Hnum, Hnd.
    destruct (Wasm.boxes results) as [boxes|]; [|cbn; lia].
    destruct (Wasm.classes results) as [classes|]; [|cbn; lia].
    destruct (Wasm.scores results) as [scores|]; [|cbn; lia].
    assert (Hb : (Qmin nd 100 <= Qnat k)%Q).
    { pose proof (Q.le_min_l nd 100). lra. }
    etrans; [apply (loop_length _ _ _ _ _ _ k Hb)|]. cbn. lia.
  - intros [H | [H | [H | H]]]; rewrite H;
      repeat match goal with
             | |- context [match ?x with _ => _ end] => destruct x
             end; reflexivity.
  - intros boxes classes scores nd extra.
    apply (loop_fuel _ _ _ _ _ _ 100 (H100 nd)). lia.
Qed.

Lemma X20_parsed_detections_meet_threshold_witness :
  let ds := Wasm.parseDetections (fun _ => "?") two_outputs 0.5 in
  map Wasm.class_name ds = ["person"]
  /\ (length ds <= 2)%nat.
Proof.
  intros ds. split; [vm_compute; reflexivity|].
  destruct (X20_parsed_detections_meet_threshold (fun _ => "?") two_outputs
              0.5) as (_ & _ & H & _).
  apply (H [2%Q] 2%Q 2%nat); [reflexivity | reflexivity|].
  vm_compute. discriminate.
Defined.

(** X21. Every detection [parseDetections] returns is consistent: when
    its corner coordinates are defined, its width and height are the
    differences of the corners; and when its class id is an index of the
    class table, its name is the table's entry, whatever the number
    printing is. *)
Theorem X21_parsed_detection_is_consistent
    (numberToString : option Z -> string) (results : Wasm.Results)
    (confidenceThreshold : Q) :
  Forall
    (fun d =>
       (forall a b, Wasm.x1 (Wasm.bbox d) = Some a ->
                    Wasm.x2 (Wasm.bbox d) = Some b ->
                    exists w, Wasm.width (Wasm.bbox d) = Some w
                              /\ (w == b - a)%Q)
       /\ (forall a b, Wasm.y1 (Wasm.bbox d) = Some a ->
                       Wasm.y2 (Wasm.bbox d) = Some b ->
                       exists h, Wasm.height (Wasm.bbox d) = Some h
                                 /\ (h == b - a)%Q)
       /\ (forall z name, Wasm.class_id d = Some z -> (0 <= z)%Z ->
                          Wasm.COCO_CLASSES !! Z.to_nat z = Some name ->
                          Wasm.class_name d = name))
    (Wasm.parseDetections numberToString results confidenceThreshold).
Proof.
  unfold Wasm.parseDetections.
  destruct (Wasm.boxes results) as [boxes|]; [|constructor].
  destruct (Wasm.classes results) as [classes|]; [|constructor].
  destruct (Wasm.scores results) as [scores|]; [|constructor].
  destruct (Wasm.numDetections results) as [num|]; [|constructor].
  destruct (num !! 0%nat) as [nd|]; [|constructor].
  apply loop_Forall; [|constructor].
  intros i _. unfold Wasm.detectionAt. cbn.
  assert (Hspan : forall u v a b,
             Wasm.times300 u = Some a -> Wasm.times300 v = Some b ->
             exists w, Wasm.span300 u v = Some w /\ (w == b - a)%Q).
  { intros [u|] [v|] a b Hu Hv; cbn in *; try discriminate.
    inversion Hu; inversion Hv; subst. eexists. split; [reflexivity|].
    ring. }
  split; [|split].
  - intros a b Ha Hb. exact (Hspan _ _ a b Ha Hb).
  - intros a b Ha Hb. exact (Hspan _ _ a b Ha Hb).
  - intros z name Hz Hpos Hname. unfold Wasm.className. rewrite Hz.
    destruct (Z.leb_spec 0 z); [|lia]. rewrite Hname. reflexivity.
Qed.

Lemma X21_parsed_detection_is_consistent_witness :
  let ds := Wasm.parseDetections (fun _ => "?") two_outputs 0.5 in
  exists d, ds = [d]
            /\ Wasm.class_name d = "person"
            /\ exists w, Wasm.width (Wasm.bbox d) = Some w /\ (w == 120)%Q.
Proof.
  intros ds.
  pose proof (X21_parsed_detection_is_consistent (fun _ => "?") two_outputs
                0.5) as H.
  fold ds in H. vm_compute in ds. subst ds.
  apply Forall_cons in H as [(Hw & _ & Hn) _].
  eexists. split; [reflexivity|]. split.
  - apply (Hn 0%Z); [reflexivity | lia | reflexivity].
  - destruct (Hw _ _ eq_refl eq_refl) as (w & Ew & Hq).
    exists w. split; [exact Ew|]. rewrite Hq. vm_compute. reflexivity.
Defined.

(** ** connectSignaling: how often the HTTP fallback is started *)

Lemma fallback_counts events : forall f,
  wsOpen (channel f) = false ->
  forallb (fun e => negb (is_WsOpened e)) events = true ->
  wsOpen (channel (foldl onWsEvent f events)) = false
  /\ (httpStarts f + length (List.filter is_WsError events)
      + length (List.filter is_WsTimeout events)
      <= httpStarts (foldl onWsEvent f events))%nat.
Proof.
  induction events as [|e events IH]; intros f Hclosed Hno; cbn [foldl].
  - split; [exact Hclosed | cbn; lia].
  - cbn in Hno. apply andb_true_iff in Hno as [He Hno].
    assert (H1 : wsOpen (channel (onWsEvent f e)) = false
                 /\ (httpStarts f + (if is_WsError e then 1 else 0)
                     + (if is_WsTimeout e then 1 else 0)
                     <= httpStarts (onWsEvent f e))%nat).
    { destruct e as [| | | |connected postOk]; cbn in He |- *.
      - discriminate.
      - split; [exact Hclosed | lia].
      - unfold ws_onclose. cbn.
        destruct (signalingRef (channel f)) as [[|]|]; cbn; split;
          (reflexivity || lia).
      - unfold ws_timeout. rewrite Hclosed. cbn. split; [exact Hclosed | lia].
      - split; [|lia]. unfold initHTTPSignaling, httpSignaling_send.
        destruct connected; [|exact Hclosed]. cbn.
        destruct (pendingOffer (channel f)); cbn; exact Hclosed. }
    destruct H1 as [Hc1 Hs1].
    destruct (IH _ Hc1 Hno) as [Hc2 Hs2]. split; [exact Hc2|].
    cbn [List.filter]. destruct (is_WsError e), (is_WsTimeout e);
      cbn [length] in *; lia.
Qed.

(** X22. When the WebSocket never opens, every [error] event and the
    3000 ms timeout each start the HTTP fallback, whether or not one has
    been started or has connected already: once an error has occurred
    and the timeout has fired, [initHTTPSignaling] has been called at
    least twice. *)
Theorem X22_failed_websocket_starts_fallback_twice
    (f : Fallback) (events : list WsEvent)
    (Hclosed : wsOpen (channel f) = false)
    (Hnever : forallb (fun e => negb (is_WsOpened e)) events = true)
    (Herror : In WsError events) (Htimeout : In WsTimeout events) :
  (httpStarts f + 2 <= httpStarts (foldl onWsEvent f events))%nat
  /\ (httpStarts f + length (List.filter is_WsError events)
      + length (List.filter is_WsTimeout events)
      <= httpStarts (foldl onWsEvent f events))%nat.
Proof.
  destruct (fallback_counts events f Hclosed Hnever) as [_ Hcount].
  split; [|exact Hcount].
  assert (He : (1 <= length (List.filter is_WsError events))%nat).
  { assert (H : In WsError (List.filter is_WsError events))
      by (apply List.filter_In; split; [exact Herror | reflexivity]).
    destruct (List.filter is_WsError events); [destruct H | cbn; lia]. }
  assert (Ht : (1 <= length (List.filter is_WsTimeout events))%nat).
  { assert (H : In WsTimeout (List.filter is_WsTimeout events))
      by (apply List.filter_In; split; [exact Htimeout | reflexivity]).
    destruct (List.filter is_WsTimeout events); [destruct H | cbn; lia]. }
  lia.
Qed.

Lemma X22_failed_websocket_starts_fallback_twice_witness :
  let f := mkFallback (mkSignaling None false None []) 0 in
  let f' := foldl onWsEvent f
              [WsError; HttpConnectDone true true; WsClosed; WsTimeout] in
  httpStarts f' = 2%nat
  /\ (2 <= httpStarts f')%nat.
Proof.
  intros f f'. split; [reflexivity|].
  apply (X22_failed_websocket_starts_fallback_twice f
           [WsError; HttpConnectDone true true; WsClosed; WsTimeout]);
    [reflexivity | reflexivity | left; reflexivity |].
  right. right. right. left. reflexivity.
Defined.

Lemma opened_socket_stays_quiet events : forall f,
  wsOpen (channel f) = true ->
  forallb (fun e => negb (is_WsError e) && negb (is_WsClosed e)) events
  = true ->
  httpStarts (foldl onWsEvent f events) = httpStarts f
  /\ wsOpen (channel (foldl onWsEvent f events)) = true.
Proof.
  induction events as [|e events IH]; intros f Hopen Hno; cbn [foldl].
  - split; [reflexivity | exact Hopen].
  - cbn in Hno. apply andb_true_iff in Hno as [He Hno].
    assert (H1 : httpStarts (onWsEvent f e) = httpStarts f
                 /\ wsOpen (channel (onWsEvent f e)) = true).
    { destruct e as [| | | |connected postOk]; cbn in He |- *;
        try discriminate.
      - split; [reflexivity|]. unfold ws_onopen, wsWrapper_send. cbn.
        destruct (pendingOffer (channel f)); reflexivity.
      - unfold ws_timeout. rewrite Hopen. cbn. split; [reflexivity|exact Hopen].
      - split; [reflexivity|]. unfold initHTTPSignaling, httpSignaling_send.
        destruct connected; [|exact Hopen]. cbn.
        destruct (pendingOffer (channel f)); cbn; exact Hopen. }
    destruct H1 as [Hs1 Hc1].
    destruct (IH _ Hc1 Hno) as [Hs2 Hc2]. split; [congruence | exact Hc2].
Qed.

(** X23. Once the WebSocket has opened, and as long as it neither errs
    nor closes, the HTTP fallback is never started: the 3000 ms timeout
    finds the socket open and does nothing. *)
Theorem X23_open_websocket_never_falls_back
    (f : Fallback) (events : list WsEvent)
    (Hquiet : forallb (fun e => negb (is_WsError e) && negb (is_WsClosed e))
                events = true) :
  httpStarts (foldl onWsEvent f (WsOpened :: events)) = httpStarts f
  /\ signalingRef (channel (onWsEvent f WsOpened))
     = Some WebSocketTransport.
Proof.
  cbn [foldl]. split.
  - destruct (opened_socket_stays_quiet events (onWsEvent f WsOpened))
      as [H _]; [| exact Hquiet | exact H].
    cbn. unfold ws_onopen, wsWrapper_send. cbn.
    destruct (pendingOffer (channel f)); reflexivity.
  - cbn. unfold ws_onopen, wsWrapper_send. cbn.
    destruct (pendingOffer (channel f)); reflexivity.
Qed.

Lemma X23_open_websocket_never_falls_back_witness :
  let f := mkFallback (mkSignaling None false None []) 0 in
  httpStarts (foldl onWsEvent f [WsOpened; WsTimeout]) = 0%nat.
Proof.
  intros f.
  exact (proj1 (X23_open_websocket_never_falls_back f [WsTimeout] eq_refl)).
Defined.
